(** * Reminder bot: time-expression resolution and one-shot scheduling

    A shallow embedding of [bot.py]: the resolver
    [_parse_when_and_message], the validation and registration done by the
    [/r] command handler [r_cmd], and the properties the specification
    states about them.

    Conventions of the embedding.
    - A Python [str] is a list of Unicode code points ([pystr]).  The set
      stripped by [strip(" ,-–—:;")] contains two code points outside ASCII,
      so bytes would not do.
    - An aware [datetime] is a wall clock in microseconds since
      1970-01-01T00:00 together with its [tzinfo]; the calendar is not
      needed.  A [timedelta] is an integer number of microseconds.
    - [dateparser.parse], [search_dates], the clock, the job queue of
      python-telegram-bot, the acceptance of a confirmation by the API and
      the local rendering of a date are external: they are parameters. *)

From Stdlib Require Import ZArith NArith List Bool Lia String Ascii.
From Stdlib Require Import Numbers.DecimalString.
From Stdlib Require Numbers.DecimalPos Numbers.DecimalZ.
Import ListNotations.

(** ** Python strings *)

Module PyStr.

Definition char := N.
Definition pystr := list char.

(** Decoding of the UTF-8 bytes of a Rocq string literal, so that the
    constants below can be written as they are in the source. *)
Fixpoint utf8_decode (acc : N) (pending : nat) (bs : list N) : pystr :=
  match bs with
  | [] => []
  | b :: bs' =>
      match pending with
      | S k =>
          let acc' := (acc * 64 + b mod 64)%N in
          match k with
          | O => acc' :: utf8_decode 0 0 bs'
          | S _ => utf8_decode acc' k bs'
          end
      | O =>
          if (b <? 128)%N then b :: utf8_decode 0 0 bs'
          else if (b <? 224)%N then utf8_decode (b mod 32) 1 bs'
          else if (b <? 240)%N then utf8_decode (b mod 16) 2 bs'
          else utf8_decode (b mod 8) 3 bs'
      end
  end.

Definition py (s : string) : pystr :=
  utf8_decode 0 0 (map N_of_ascii (list_ascii_of_string s)).

(** [str.isspace] on one code point, which is also what [\s] matches in
    a [str] pattern. *)
Definition isspace (c : char) : bool :=
  ((9 <=? c) && (c <=? 13) || (28 <=? c) && (c <=? 32)
   || (c =? 133) || (c =? 160) || (c =? 5760)
   || (8192 <=? c) && (c <=? 8202)
   || (c =? 8232) || (c =? 8233) || (c =? 8239) || (c =? 8287)
   || (c =? 12288))%N.

(** [c in chars] for a one-character [c]. *)
Definition contains (c : char) (s : pystr) : bool := existsb (N.eqb c) s.

Fixpoint lstrip_by (p : char -> bool) (s : pystr) : pystr :=
  match s with
  | [] => []
  | c :: s' => if p c then lstrip_by p s' else s
  end.

Definition rstrip_by (p : char -> bool) (s : pystr) : pystr :=
  rev (lstrip_by p (rev s)).

Definition strip_by (p : char -> bool) (s : pystr) : pystr :=
  rstrip_by p (lstrip_by p s).

(** [s.strip()] *)
Definition strip (s : pystr) : pystr := strip_by isspace s.

(** [s.strip(chars)] *)
Definition strip_chars (chars s : pystr) : pystr :=
  strip_by (fun c => contains c chars) s.

(** [s.split(sep, 1)] for a one-character [sep]: one piece when [sep]
    does not occur, otherwise the text before the first [sep] and all
    the text after it. *)
Fixpoint split1 (sep : char) (s : pystr) : list pystr :=
  match s with
  | [] => [[]]
  | c :: s' =>
      if (c =? sep)%N then [[]; s']
      else match split1 sep s' with
           | h :: t => (c :: h) :: t
           | [] => [[c]]
           end
  end.

Fixpoint startswith (prefix s : pystr) : bool :=
  match prefix, s with
  | [], _ => true
  | _ :: _, [] => false
  | a :: prefix', b :: s' => (a =? b)%N && startswith prefix' s'
  end.

(** The scan of [s.replace(old, "")] for a non-empty [old]: [skip]
    counts the characters of the current occurrence still to drop. *)
Fixpoint remove_scan (old : pystr) (skip : nat) (s : pystr) : pystr :=
  match s with
  | [] => []
  | c :: s' =>
      match skip with
      | S k => remove_scan old k s'
      | O =>
          if startswith old s then remove_scan old (List.length old - 1) s'
          else c :: remove_scan old 0 s'
      end
  end.

(** [s.replace(old, "")]: every occurrence of [old], left to right and
    without overlap, is removed; an empty [old] changes nothing. *)
Definition replace_with_empty (old s : pystr) : pystr :=
  match old with
  | [] => s
  | _ :: _ => remove_scan old 0 s
  end.

(** [str(n)] for an [int]. *)
Definition str_of_int (n : Z) : pystr :=
  py (NilZero.string_of_int (Z.to_int n)).

Definition is_empty (s : pystr) : bool :=
  match s with [] => true | _ :: _ => false end.

(** The separator ["|"]. *)
Definition bar : char := 124%N.

End PyStr.
Import PyStr.

(** ** Aware datetimes *)

Module DateTime.

Inductive tzinfo : Type :=
| UTC
| Zone (name : pystr) (offset : Z).

Definition utcoffset (tz : tzinfo) : Z :=
  match tz with
  | UTC => 0
  | Zone _ off => off
  end.

Record datetime : Type := mkDatetime {
  wall : Z;
  tz : tzinfo
}.

(** Microseconds since the epoch. *)
Definition instant (d : datetime) : Z := (wall d - utcoffset (tz d))%Z.

(** [d.astimezone(timezone.utc)]: the wall clock is moved by the offset
    and the zone replaced.  The bounds of [datetime] (the years 1 to
    9999) are not modelled: at less than one offset from them Python
    raises [OverflowError] here. *)
Definition astimezone_utc (d : datetime) : datetime :=
  mkDatetime (wall d - utcoffset (tz d)) UTC.

(** [datetime.now(timezone.utc)] at a clock reading. *)
Definition now_at (clock : Z) : datetime := mkDatetime clock UTC.

(** [(a - b)] as a [timedelta], in microseconds.  [total_seconds()] is
    this integer divided by [10**6] and rounded to a double; as 5.0 is a
    double and the rounding is monotone, the double is below 5 exactly
    when the integer is below 5000000, so the comparison of [r_cmd] is
    made on the integer. *)
Definition sub (a b : datetime) : Z := (instant a - instant b)%Z.

(** The integer nearest to [a / b], ties to the even one, for [0 <= a]
    and [0 < b]. *)
Definition div_nearest_even (a b : Z) : Z :=
  let q := (a / b)%Z in
  let r := (a mod b)%Z in
  if (2 * r <? b)%Z then q
  else if (b <? 2 * r)%Z then (q + 1)%Z
  else if Z.even q then q else (q + 1)%Z.

(** The integer part of the binary logarithm of [p / q], for [0 < p] and
    [0 < q]. *)
Definition log2_quotient (p q : Z) : Z :=
  let k := (Z.log2 p - Z.log2 q)%Z in
  if (0 <=? k)%Z
  then (if (q * 2 ^ k <=? p)%Z then k else (k - 1)%Z)
  else (if (q <=? p * 2 ^ (- k))%Z then k else (k - 1)%Z).

(** [int(p / q)] for two [int]s [0 < p] and [0 < q]: the division gives
    the double nearest to the quotient (53 significant bits, ties to
    even), and [int] takes its integer part.  The quotients met here are
    in the normal range of the doubles. *)
Definition int_true_div_pos (p q : Z) : Z :=
  let e := (log2_quotient p q - 52)%Z in
  if (0 <=? e)%Z
  then (div_nearest_even p (q * 2 ^ e) * 2 ^ e)%Z
  else (div_nearest_even (p * 2 ^ (- e)) q / 2 ^ (- e))%Z.

(** [int(n / q)] for [0 < q]; the rounding and [int] are symmetric. *)
Definition int_true_div (n q : Z) : Z :=
  match n with
  | Z0 => 0%Z
  | Zpos _ => int_true_div_pos n q
  | Zneg _ => (- int_true_div_pos (- n) q)%Z
  end.

(** [int(d.timestamp())]: [timestamp()] is [(d - epoch).total_seconds()],
    the microseconds divided by [10**6] as a double, and [int] truncates
    it towards zero. *)
Definition int_timestamp (d : datetime) : Z :=
  int_true_div (instant d) 1000000.

End DateTime.
Import DateTime.

(** ** Exceptions and the request monad *)

Module Effects.

(** What can be raised inside the [try] block of [r_cmd]: the
    [ValueError]s of the bot itself, whatever the job queue raises while
    registering a job, and whatever [reply_text] raises when the
    confirmation is refused (each kept apart by its origin). *)
Inductive exn : Type :=
| ValueError (msg : pystr)
| JobQueueError (detail : pystr)
| ReplyError (detail : pystr).

Inductive result (A : Type) : Type :=
| Return (a : A)
| Raise (e : exn).
Arguments Return {A} a.
Arguments Raise {A} e.

(** A job as given to [job_queue.run_once]: [when] is the delay in
    microseconds, [data] is the pair of [chat_id] and [msg]. *)
Record Job : Type := mkJob {
  when : Z;
  data_chat_id : Z;
  data_msg : pystr;
  name : pystr
}.

(** The state a request acts on: the jobs held by the job queue and the
    messages sent so far, each with the chat it went to. *)
Record Context : Type := mkContext {
  job_queue : list Job;
  sent : list (Z * pystr)
}.

Definition M (A : Type) : Type := Context -> result A * Context.

Definition ret {A : Type} (a : A) : M A := fun c => (Return a, c).

Definition raise {A : Type} (e : exn) : M A := fun c => (Raise e, c).

Definition bind {A B : Type} (m : M A) (k : A -> M B) : M B :=
  fun c =>
    match m c with
    | (Return a, c') => k a c'
    | (Raise e, c') => (Raise e, c')
    end.

Definition lift {A : Type} (r : result A) : M A := fun c => (r, c).

(** [try: body except Exception: handler] *)
Definition try_except (body handler : M unit) : M unit :=
  fun c =>
    match body c with
    | (Return tt, c') => (Return tt, c')
    | (Raise _, c') => handler c'
    end.

(** A message that is delivered: [bot.send_message], and
    [update.message.reply_text(text)] once the text is accepted. *)
Definition send_message (chat_id : Z) (text : pystr) : M unit :=
  fun c => (Return tt, mkContext (job_queue c) (sent c ++ [(chat_id, text)])).

End Effects.
Import Effects.

Declare Scope request_scope.
Delimit Scope request_scope with request.
Notation "x <- m ;; k" := (bind m (fun x => k))
  (at level 61, m at next level, right associativity) : request_scope.
Notation "m ;;; k" := (bind m (fun _ => k))
  (at level 61, right associativity) : request_scope.

(** ** The resolver *)

Module Resolver.

Definition message_vide : pystr := py "Message vide.".
Definition date_non_comprise : pystr := py "Date/heure non comprise.".
Definition date_non_trouvee : pystr := py "Date/heure non trouvée.".
Definition unpack_failed : pystr :=
  py "not enough values to unpack (expected 2, got 1)".

(** The message used when nothing is left of the text. *)
Definition rappel : pystr := py "Rappel".

(** The characters of [strip(" ,-–—:;")]. *)
Definition boundary_chars : pystr := py " ,-–—:;".

(** [re.sub(r"^/r\s*", "", text, flags=re.IGNORECASE)]: ["/"] has no
    case, and [r] and [R] are the only code points that match [r] when
    case is ignored. *)
Definition re_sub_trigger (text : pystr) : pystr :=
  match text with
  | c1 :: c2 :: rest =>
      if ((c1 =? 47) && ((c2 =? 114) || (c2 =? 82)))%N
      then lstrip_by isspace rest
      else text
  | _ => text
  end.

(** The first two statements of [_parse_when_and_message]. *)
Definition command_text (raw : pystr) : pystr :=
  strip (re_sub_trigger (strip raw)).

Section WithParser.

(** [dateparser.parse(s, languages=["fr"], settings=...)]: [None] or an
    aware datetime. *)
Variable dateparser_parse : pystr -> option datetime.

(** [search_dates(s, languages=["fr"], settings=...)]: [None] or a list
    of pairs of a matched substring and its datetime. *)
Variable search_dates : pystr -> option (list (pystr * datetime)).

(** The resolver.  A [datetime] is always true, so [if not dt] asks for
    [None]; [if not found] asks for [None] or the empty list.  The
    unpacking of the two pieces cannot fail once ["|"] is in the text; the
    branch is kept as Python has it. *)
Definition _parse_when_and_message (raw : pystr)
  : result (datetime * pystr * pystr) :=
  let text := command_text raw in
  if contains bar text then
    match map strip (split1 bar text) with
    | [when_part; msg] =>
        if is_empty msg then Raise (ValueError message_vide)
        else
          match dateparser_parse when_part with
          | None => Raise (ValueError date_non_comprise)
          | Some dt => Return (astimezone_utc dt, when_part, msg)
          end
    | _ => Raise (ValueError unpack_failed)
    end
  else
    match search_dates text with
    | None | Some [] => Raise (ValueError date_non_trouvee)
    | Some ((match_text, dt) :: _) =>
        let msg :=
          strip_chars boundary_chars (replace_with_empty match_text text) in
        let msg := if is_empty msg then rappel else msg in
        Return (astimezone_utc dt, match_text, msg)
    end.

End WithParser.

End Resolver.
Import Resolver.

(** ** The command handler *)

Module Bot.

Local Open Scope request_scope.

Definition nl : pystr := [10%N].
Definition dquote : pystr := [34%N].

Definition HELP : pystr :=
  py "✅ Rappels en français" ++ nl ++ nl
  ++ py "Format conseillé (ultra fiable) :" ++ nl
  ++ py "  /r <quand> | <message>" ++ nl ++ nl
  ++ py "Exemples :" ++ nl
  ++ py "  /r dans 1 minute | tester rappel" ++ nl
  ++ py "  /r demain 14h | appeler le garage" ++ nl
  ++ py "  /r ce soir 19h30 | lancer la cuisson" ++ nl
  ++ py "  /r lundi 9h | payer facture" ++ nl ++ nl
  ++ py "Tu peux aussi tenter sans " ++ dquote ++ py "|" ++ dquote
  ++ py ", mais c’est moins fiable.".

Definition trop_proche : pystr :=
  py "La date/heure est trop proche ou déjà passée.".

Definition pas_compris : pystr :=
  py "❌ Je n’ai pas compris." ++ nl ++ nl ++ HELP.

(** The collaborators of one request. *)
Record External : Type := mkExternal {
  dateparser_parse : pystr -> option datetime;
  search_dates : pystr -> option (list (pystr * datetime));
  (** the reading of [datetime.now(timezone.utc)], in microseconds *)
  clock : Z;
  (** whether [run_once] raises for this queue and job, and with what *)
  run_once_raises : list Job -> Job -> option pystr;
  (** whether [reply_text] raises for the text of a confirmation, which
      holds what the user wrote and can be longer than the API takes, and
      with what; the fixed texts of the bot are short and are delivered *)
  reply_raises : pystr -> option pystr;
  (** [d.astimezone().strftime("%Y-%m-%d %H:%M")] *)
  strftime_local : datetime -> pystr
}.

(** What the handler reads of an update: [update.message.text] and
    [update.effective_chat.id].  The command handler is only called for a
    message that has a text. *)
Record Update : Type := mkUpdate {
  message_text : pystr;
  effective_chat_id : Z
}.

(** [context.job_queue.run_once(callback, when=..., data=..., name=...)]:
    the queue either raises or holds one more job. *)
Definition run_once (ext : External) (j : Job) : M unit :=
  fun c =>
    match run_once_raises ext (job_queue c) j with
    | Some detail => (Raise (JobQueueError detail), c)
    | None => (Return tt, mkContext (job_queue c ++ [j]) (sent c))
    end.

(** [f"reminder-{chat_id}-{int(when_utc.timestamp())}"] *)
Definition job_name (chat_id : Z) (when_utc : datetime) : pystr :=
  py "reminder-" ++ str_of_int chat_id ++ py "-"
  ++ str_of_int (int_timestamp when_utc).

(** Five seconds, in microseconds. *)
Definition min_delay : Z := 5000000.

(** The validation and registration of [r_cmd]. *)
Definition schedule (ext : External) (chat_id : Z) (when_utc : datetime)
  (msg : pystr) : M unit :=
  let now_utc := now_at (clock ext) in
  let delay_seconds := sub when_utc now_utc in
  if (delay_seconds <? min_delay)%Z then raise (ValueError trop_proche)
  else
    run_once ext (mkJob delay_seconds chat_id msg (job_name chat_id when_utc)).

Definition confirmation (ext : External) (when_utc : datetime)
  (human_when msg : pystr) : pystr :=
  py "✅ OK. Rappel prévu (" ++ human_when ++ py ") → "
  ++ strftime_local ext when_utc ++ nl ++ py "📝 " ++ msg.

(** [update.message.reply_text(text)] for the confirmation: the text is
    delivered, or the call raises and nothing is sent. *)
Definition reply_text (ext : External) (chat_id : Z) (text : pystr)
  : M unit :=
  match reply_raises ext text with
  | Some detail => raise (ReplyError detail)
  | None => send_message chat_id text
  end.

(** The [try] block up to the registration: the text is resolved, the
    instant is validated and the job is given to the job queue. *)
Definition r_register (ext : External) (update : Update)
  : M (datetime * pystr * pystr) :=
  r <- lift (_parse_when_and_message (dateparser_parse ext)
               (search_dates ext) (message_text update)) ;;
  let '(when_utc, human_when, msg) := r in
  schedule ext (effective_chat_id update) when_utc msg ;;;
  ret r.

(** The body of the [try] block: the registration, then the
    confirmation, which is still inside the block. *)
Definition r_try (ext : External) (update : Update) : M unit :=
  r <- r_register ext update ;;
  let '(when_utc, human_when, msg) := r in
  reply_text ext (effective_chat_id update)
    (confirmation ext when_utc human_when msg).

Definition r_cmd (ext : External) (update : Update) : M unit :=
  try_except (r_try ext update)
    (send_message (effective_chat_id update) pas_compris).


(** A conversation: requests handled one after the other, each with its
    own collaborators. *)
Fixpoint handle_all (reqs : list (External * Update)) (c : Context)
  : Context :=
  match reqs with
  | [] => c
  | (ext, update) :: reqs' => handle_all reqs' (snd (r_cmd ext update c))
  end.

End Bot.
Import Bot.

(** The time expression read from the text [b] that stands before the
    first separator: what is left of [b] once the resolver has trimmed the
    input and removed the command. *)
Definition when_segment (b : pystr) : pystr :=
  strip (re_sub_trigger (lstrip_by isspace b)).

(** The text left in fallback mode once the matched phrase is taken out
    and the boundary characters are stripped. *)
Definition residual (match_text text : pystr) : pystr :=
  strip_chars boundary_chars (replace_with_empty match_text text).

(** ** The other handlers *)

Module Handlers.

(** The text of [start]. *)
Definition pret : pystr :=
  py "👋 Bot de rappels prêt." ++ nl ++ nl ++ HELP.

Definition start (update : Update) : M unit :=
  send_message (effective_chat_id update) pret.

Definition help_cmd (update : Update) : M unit :=
  send_message (effective_chat_id update) HELP.

(** An update together with the handler that [main] has registered for
    its command: [start], [help_cmd] or [r_cmd]. *)
Inductive Request : Type :=
| OnStart (update : Update)
| OnHelp (update : Update)
| OnR (ext : External) (update : Update).

Definition request_update (r : Request) : Update :=
  match r with
  | OnStart u | OnHelp u | OnR _ u => u
  end.

Definition handle (r : Request) : M unit :=
  match r with
  | OnStart u => start u
  | OnHelp u => help_cmd u
  | OnR ext u => r_cmd ext u
  end.

(** The requests of a run of the bot, handled in turn. *)
Fixpoint serve (reqs : list Request) (c : Context) : Context :=
  match reqs with
  | [] => c
  | r :: reqs' => serve reqs' (snd (handle r c))
  end.

End Handlers.
Import Handlers.

(** ** Predicates used in the statements *)

(** Whether the pattern [^/r] matches, case ignored. *)
Definition has_trigger (text : pystr) : bool :=
  match text with
  | c1 :: c2 :: _ => ((c1 =? 47) && ((c2 =? 114) || (c2 =? 82)))%N
  | _ => false
  end.

(** Neither the first nor the last character is of the class [p]. *)
Definition ends_clean (p : char -> bool) (s : pystr) : Prop :=
  (forall c t, s = c :: t -> p c = false)
  /\ (forall t c, s = t ++ [c] -> p c = false).

Definition is_digit (c : char) : bool := ((48 <=? c) && (c <=? 57))%N.

Definition in_boundary (c : char) : bool := contains c boundary_chars.

(** The bytes of a Rocq string, before they are decoded by [py]. *)
Definition code_units (s : string) : list N :=
  map N_of_ascii (list_ascii_of_string s).

(** ** Sample collaborators

    A parser and a search that know one phrase each, a clock and a job
    queue, for the examples. *)

Fixpoint str_eqb (s t : pystr) : bool :=
  match s, t with
  | [], [] => true
  | a :: s', b :: t' => (a =? b)%N && str_eqb s' t'
  | _, _ => false
  end.

Definition paris : tzinfo := Zone (py "Europe/Paris") 3600000000.

(** ["dans 1 minute"], said at 01:00:00 local time on the first day of
    the epoch. *)
Definition sample_parse (s : pystr) : option datetime :=
  if str_eqb s (py "dans 1 minute")
  then Some (mkDatetime 3660000000 paris)
  else None.

(** ["demain"] at the start of the text, said on the same day. *)
Definition sample_search (s : pystr) : option (list (pystr * datetime)) :=
  if startswith (py "demain") s
  then Some [(py "demain", mkDatetime 90000000000 paris)]
  else None.

Definition sample_render (d : datetime) : pystr := py "1970-01-01 01:01".

(** A job queue that takes every job, and one that is shut down. *)
Definition accept_all (q : list Job) (j : Job) : option pystr := None.

Definition reject_all (q : list Job) (j : Job) : option pystr :=
  Some (py "SchedulerNotRunningError").

Definition sample_ext (clock : Z)
  (raises : list Job -> Job -> option pystr) : External :=
  mkExternal sample_parse sample_search clock raises (fun _ => None)
    sample_render.

(** Collaborators with a job queue that takes every job and an API that
    refuses the confirmation. *)
Definition refusing_ext (clock : Z) : External :=
  mkExternal sample_parse sample_search clock accept_all
    (fun _ => Some (py "BadRequest: Message is too long")) sample_render.

Definition empty_context : Context := mkContext [] [].

(** ** Lemmas on strings *)

Section Stripping.

Variable p : char -> bool.

Lemma lstrip_by_stop (x y : pystr) (c : char) :
  p c = false -> lstrip_by p (x ++ c :: y) = lstrip_by p x ++ c :: y.
Proof.
  intros Hc. induction x as [|d x IH]; simpl.
  - now rewrite Hc.
  - destruct (p d); [exact IH | reflexivity].
Qed.

Lemma rstrip_by_stop (x y : pystr) (c : char) :
  p c = false -> rstrip_by p (x ++ c :: y) = x ++ c :: rstrip_by p y.
Proof.
  intros Hc. unfold rstrip_by.
  rewrite rev_app_distr. simpl rev. rewrite <- app_assoc. simpl app.
  rewrite (lstrip_by_stop _ _ _ Hc).
  rewrite rev_app_distr. simpl rev. rewrite rev_involutive.
  now rewrite <- app_assoc.
Qed.

Lemma lstrip_by_idem (x : pystr) :
  lstrip_by p (lstrip_by p x) = lstrip_by p x.
Proof.
  induction x as [|d x IH]; simpl; [reflexivity|].
  destruct (p d) eqn:Hd; [exact IH | simpl; now rewrite Hd].
Qed.

Lemma rstrip_by_idem (x : pystr) :
  rstrip_by p (rstrip_by p x) = rstrip_by p x.
Proof.
  unfold rstrip_by. now rewrite rev_involutive, lstrip_by_idem.
Qed.

(** What [lstrip] removes is a run of characters of the stripped class. *)
Lemma lstrip_by_split (x : pystr) :
  exists w, x = w ++ lstrip_by p x /\ forallb p w = true.
Proof.
  induction x as [|d x [w [Hw Hp]]]; simpl.
  - now exists [].
  - destruct (p d) eqn:Hd.
    + exists (d :: w). simpl. rewrite Hd, Hp. split; [now f_equal | reflexivity].
    + now exists [].
Qed.

Lemma rstrip_by_split (x : pystr) :
  exists w, x = rstrip_by p x ++ w /\ forallb p w = true.
Proof.
  unfold rstrip_by. destruct (lstrip_by_split (rev x)) as [w [Hw Hp]].
  exists (rev w). split.
  - rewrite <- rev_app_distr, <- Hw. now rewrite rev_involutive.
  - rewrite forallb_forall in *. intros c Hc. apply Hp. now apply in_rev.
Qed.

Lemma lstrip_by_head (x : pystr) :
  match lstrip_by p x with
  | [] => True
  | c :: _ => p c = false
  end.
Proof.
  induction x as [|d x IH]; simpl; [exact I|].
  destruct (p d) eqn:Hd; [exact IH | exact Hd].
Qed.

Lemma rstrip_by_nil : rstrip_by p [] = [].
Proof. reflexivity. Qed.

(** Stripping on the right does not disturb stripping on the left. *)
Lemma lstrip_rstrip_comm (x : pystr) :
  lstrip_by p (rstrip_by p x) = rstrip_by p (lstrip_by p x).
Proof.
  destruct (lstrip_by_split x) as [w [Hw Hp]].
  pose proof (lstrip_by_head x) as Hh.
  destruct (lstrip_by p x) as [|c m] eqn:Hl.
  - rewrite app_nil_r in Hw. subst w.
    assert (Hr : rstrip_by p x = []).
    { unfold rstrip_by.
      assert (Hall : forallb p (rev x) = true).
      { rewrite forallb_forall in *. intros d Hd. apply Hp. now apply in_rev. }
      clear - Hall. induction (rev x) as [|d l IH]; simpl in *; [reflexivity|].
      apply andb_prop in Hall as [Hd Hl]. rewrite Hd. now apply IH. }
    now rewrite Hr.
  - rewrite Hw at 1. rewrite (rstrip_by_stop _ _ _ Hh).
    rewrite (lstrip_by_stop _ _ _ Hh).
    assert (Hwn : lstrip_by p w = []).
    { clear - Hp. induction w as [|d l IH]; simpl in *; [reflexivity|].
      apply andb_prop in Hp as [Hd Hl]. rewrite Hd. now apply IH. }
    rewrite Hwn. simpl.
    change (c :: m) with ([] ++ c :: m). now rewrite (rstrip_by_stop _ _ _ Hh).
Qed.

Lemma strip_by_rstrip (x : pystr) :
  strip_by p (rstrip_by p x) = strip_by p x.
Proof.
  unfold strip_by. now rewrite lstrip_rstrip_comm, rstrip_by_idem.
Qed.

Lemma strip_by_lstrip (x : pystr) :
  strip_by p (lstrip_by p x) = strip_by p x.
Proof.
  unfold strip_by. now rewrite lstrip_by_idem.
Qed.

(** Stripping keeps the text between two runs of stripped characters
    as it is. *)
Lemma strip_by_split (x : pystr) :
  exists l r, x = l ++ strip_by p x ++ r
              /\ forallb p l = true /\ forallb p r = true.
Proof.
  destruct (lstrip_by_split x) as [l [Hl Hpl]].
  destruct (rstrip_by_split (lstrip_by p x)) as [r [Hr Hpr]].
  exists l, r. unfold strip_by. now rewrite <- Hr.
Qed.

Lemma in_lstrip_by (c : char) (x : pystr) :
  In c (lstrip_by p x) -> In c x.
Proof.
  destruct (lstrip_by_split x) as [w [Hw _]]. intros H.
  rewrite Hw. apply in_or_app. now right.
Qed.

Lemma in_rstrip_by (c : char) (x : pystr) :
  In c (rstrip_by p x) -> In c x.
Proof.
  destruct (rstrip_by_split x) as [w [Hw _]]. intros H.
  rewrite Hw. apply in_or_app. now left.
Qed.

Lemma in_strip_by (c : char) (x : pystr) :
  In c (strip_by p x) -> In c x.
Proof.
  unfold strip_by. intros H. now apply in_lstrip_by, in_rstrip_by.
Qed.

(** A character outside the stripped class survives stripping. *)
Lemma in_strip_by_kept (c : char) (x : pystr) :
  p c = false -> In c x -> In c (strip_by p x).
Proof.
  intros Hc Hin. apply in_split in Hin as [u [v ->]].
  unfold strip_by. rewrite (lstrip_by_stop _ _ _ Hc), (rstrip_by_stop _ _ _ Hc).
  apply in_or_app. right. now left.
Qed.

End Stripping.

Lemma isspace_bar : isspace bar = false.
Proof. reflexivity. Qed.

Lemma contains_In (c : char) (s : pystr) : contains c s = true <-> In c s.
Proof.
  unfold contains. rewrite existsb_exists. split.
  - intros [d [Hd He]]. apply N.eqb_eq in He. now subst.
  - intros H. exists c. split; [exact H | apply N.eqb_refl].
Qed.

Lemma contains_not_In (c : char) (s : pystr) :
  contains c s = false <-> ~ In c s.
Proof.
  rewrite <- contains_In. destruct (contains c s); split; congruence.
Qed.

Lemma split1_at_first (sep : char) (x y : pystr) :
  ~ In sep x -> split1 sep (x ++ sep :: y) = [x; y].
Proof.
  induction x as [|d x IH]; simpl; intros Hn.
  - now rewrite N.eqb_refl.
  - destruct (N.eqb_spec d sep) as [->|Hd]; [exfalso; apply Hn; now left|].
    rewrite IH; [reflexivity | intros H; apply Hn; now right].
Qed.

Lemma split1_without (sep : char) (x : pystr) :
  ~ In sep x -> split1 sep x = [x].
Proof.
  induction x as [|d x IH]; simpl; intros Hn; [reflexivity|].
  destruct (N.eqb_spec d sep) as [->|Hd]; [exfalso; apply Hn; now left|].
  rewrite IH; [reflexivity | intros H; apply Hn; now right].
Qed.

(** The definitions compute what Python computes. *)

Example strip_both_ends : strip (py "  a b  ") = py "a b".
Proof. reflexivity. Qed.

Example strip_no_break_space : strip (160%N :: py "a" ++ [8239%N]) = py "a".
Proof. reflexivity. Qed.

Example split1_first_only :
  split1 bar (py "a|b|c") = [py "a"; py "b|c"].
Proof. reflexivity. Qed.

Example replace_left_to_right :
  replace_with_empty (py "aa") (py "aaaxaab") = py "axb".
Proof. reflexivity. Qed.

Example replace_empty_phrase : replace_with_empty [] (py "abc") = py "abc".
Proof. reflexivity. Qed.

Example strip_chars_dashes :
  strip_chars (py " ,-–—:;") (py " — acheter du pain ;-") = py "acheter du pain".
Proof. reflexivity. Qed.

Example str_of_negative_int : str_of_int (-1001234) = py "-1001234".
Proof. reflexivity. Qed.

Example command_text_upper_case :
  command_text (py "  /R   demain 14h | garage ") = py "demain 14h | garage".
Proof. reflexivity. Qed.

Example command_text_keeps_the_rest :
  command_text (py "/remind moi") = py "emind moi".
Proof. reflexivity. Qed.

Example job_name_before_epoch :
  job_name (-1001234) (mkDatetime (-1500000) UTC) = py "reminder--1001234--1".
Proof. reflexivity. Qed.

(** ** Lemmas on the resolver *)

Lemma re_sub_trigger_before_bar (x y : pystr) :
  re_sub_trigger (x ++ bar :: y) = re_sub_trigger x ++ bar :: y.
Proof.
  destruct x as [|c1 [|c2 rest]]; simpl.
  - destruct y; reflexivity.
  - now rewrite andb_false_r.
  - destruct ((c1 =? 47) && ((c2 =? 114) || (c2 =? 82)))%N; [|reflexivity].
    apply lstrip_by_stop, isspace_bar.
Qed.

Lemma in_re_sub_trigger (c : char) (x : pystr) :
  In c (re_sub_trigger x) -> In c x.
Proof.
  destruct x as [|c1 [|c2 rest]]; simpl; try tauto.
  destruct ((c1 =? 47) && ((c2 =? 114) || (c2 =? 82)))%N; simpl; [|tauto].
  intros H. right. right. now apply in_lstrip_by in H.
Qed.

Lemma in_command_text (c : char) (raw : pystr) :
  In c (command_text raw) -> In c raw.
Proof.
  unfold command_text, strip. intros H.
  now apply in_strip_by, in_re_sub_trigger, in_strip_by in H.
Qed.

(** The text the two tiers work on, for an input with a separator: the
    command and the outer blanks are gone, the first separator is still
    the first one. *)
Lemma command_text_with_bar (b a : pystr) :
  command_text (b ++ bar :: a)
  = lstrip_by isspace (re_sub_trigger (lstrip_by isspace b))
    ++ bar :: rstrip_by isspace a.
Proof.
  unfold command_text, strip, strip_by.
  rewrite (lstrip_by_stop _ _ _ _ isspace_bar).
  rewrite (rstrip_by_stop _ _ _ _ isspace_bar).
  rewrite re_sub_trigger_before_bar.
  rewrite (lstrip_by_stop _ _ _ _ isspace_bar).
  rewrite (rstrip_by_stop _ _ _ _ isspace_bar).
  now rewrite rstrip_by_idem.
Qed.

Lemma command_text_no_bar (raw : pystr) :
  ~ In bar raw -> contains bar (command_text raw) = false.
Proof.
  intros Hn. apply contains_not_In. intros H. apply Hn.
  now apply in_command_text.
Qed.

Section ResolverFacts.

Variable parse : pystr -> option datetime.
Variable search : pystr -> option (list (pystr * datetime)).

(** Explicit-delimiter mode, read off the input. *)
Lemma resolve_with_bar (b a : pystr) :
  ~ In bar b ->
  _parse_when_and_message parse search (b ++ bar :: a)
  = if is_empty (strip a) then Raise (ValueError message_vide)
    else match parse (when_segment b) with
         | None => Raise (ValueError date_non_comprise)
         | Some dt => Return (astimezone_utc dt, when_segment b, strip a)
         end.
Proof.
  intros Hn. unfold _parse_when_and_message.
  rewrite command_text_with_bar.
  set (w := lstrip_by isspace (re_sub_trigger (lstrip_by isspace b))).
  assert (Hw : ~ In bar w).
  { unfold w. intros H.
    apply in_lstrip_by, in_re_sub_trigger, in_lstrip_by in H. now apply Hn. }
  assert (Hc : contains bar (w ++ bar :: rstrip_by isspace a) = true).
  { apply contains_In, in_or_app. right. now left. }
  rewrite Hc, (split1_at_first _ _ _ Hw). simpl map.
  assert (E1 : strip w = when_segment b).
  { unfold w, when_segment, strip. apply strip_by_lstrip. }
  assert (E2 : strip (rstrip_by isspace a) = strip a).
  { unfold strip. apply strip_by_rstrip. }
  now rewrite E1, E2.
Qed.

(** Implicit-extraction mode, read off the input. *)
Lemma resolve_without_bar (raw : pystr) :
  ~ In bar raw ->
  _parse_when_and_message parse search raw
  = match search (command_text raw) with
    | None | Some [] => Raise (ValueError date_non_trouvee)
    | Some ((match_text, dt) :: _) =>
        Return (astimezone_utc dt, match_text,
                if is_empty (residual match_text (command_text raw))
                then rappel
                else residual match_text (command_text raw))
    end.
Proof.
  intros Hn. unfold _parse_when_and_message.
  now rewrite (command_text_no_bar _ Hn).
Qed.

End ResolverFacts.

(** An input that contains a separator splits at the first one. *)
Lemma first_bar_split (raw : pystr) :
  In bar raw -> exists b a, raw = b ++ bar :: a /\ ~ In bar b.
Proof.
  induction raw as [|c raw IH]; simpl; [tauto|].
  destruct (N.eq_dec c bar) as [->|Hc].
  - intros _. exists [], raw. split; [reflexivity | tauto].
  - intros [H|H]; [congruence|].
    destruct (IH H) as [b [a [-> Hb]]].
    exists (c :: b), a. split; [reflexivity|].
    simpl. intros [E|E]; [congruence | now apply Hb].
Qed.

Lemma is_empty_false (s : pystr) : s <> [] -> is_empty s = false.
Proof. destruct s; [congruence | reflexivity]. Qed.

Lemma instant_astimezone_utc (d : datetime) :
  instant (astimezone_utc d) = instant d.
Proof. unfold instant, astimezone_utc. simpl. lia. Qed.

(** ** Lemmas on [replace] *)

Lemma startswith_app (m s : pystr) : startswith m (m ++ s) = true.
Proof.
  induction m as [|a m IH]; simpl; [reflexivity|].
  now rewrite N.eqb_refl, IH.
Qed.

Lemma remove_scan_skip (old x y : pystr) :
  remove_scan old (List.length x) (x ++ y) = remove_scan old 0 y.
Proof.
  induction x as [|c x IH]; simpl; [reflexivity | exact IH].
Qed.

(** A text in which the phrase does not occur is left as it is. *)
Lemma remove_scan_absent (old s : pystr) :
  (forall i, startswith old (skipn i s) = false) ->
  remove_scan old 0 s = s.
Proof.
  induction s as [|c s IH]; intros H; simpl; [reflexivity|].
  pose proof (H 0) as H0. simpl in H0. rewrite H0.
  f_equal. apply IH. intros i. exact (H (S i)).
Qed.

(** The first occurrence of the phrase is cut out and the scan goes on
    behind it. *)
Lemma remove_scan_first (old p s : pystr) :
  old <> [] ->
  (forall i, i < List.length p ->
             startswith old (skipn i (p ++ old ++ s)) = false) ->
  remove_scan old 0 (p ++ old ++ s) = p ++ remove_scan old 0 s.
Proof.
  intros Hold. induction p as [|c p IH]; intros H.
  - destruct old as [|a old']; [congruence|].
    change ([] ++ (a :: old') ++ s) with (a :: (old' ++ s)).
    change ([] ++ remove_scan (a :: old') 0 s)
      with (remove_scan (a :: old') 0 s).
    unfold remove_scan at 1; fold remove_scan.
    change (a :: old' ++ s) with ((a :: old') ++ s).
    rewrite (startswith_app (a :: old') s).
    replace (List.length (a :: old') - 1) with (List.length old')
      by (simpl; lia).
    apply remove_scan_skip.
  - simpl app. cbn [remove_scan].
    pose proof (H 0 (Nat.lt_0_succ _)) as H0. simpl in H0. rewrite H0.
    f_equal. apply IH. intros i Hi.
    apply (H (S i)). simpl. lia.
Qed.

Lemma replace_single_occurrence (old p s : pystr) :
  old <> [] ->
  (forall i, i < List.length p ->
             startswith old (skipn i (p ++ old ++ s)) = false) ->
  (forall i, startswith old (skipn i s) = false) ->
  replace_with_empty old (p ++ old ++ s) = p ++ s.
Proof.
  intros Hold Hp Hs. unfold replace_with_empty.
  destruct old as [|a old'] eqn:E; [congruence|]. rewrite <- E in *.
  rewrite (remove_scan_first old p s Hold Hp).
  now rewrite (remove_scan_absent old s Hs).
Qed.

(** ** Properties of the resolver *)

(** C2. For an input with a separator, a time expression before it that
    the parser accepts and a text after it that is not empty once trimmed
    (the message segment of the specification), the resolver succeeds and
    the message is the text after the separator with the surrounding
    whitespace trimmed. *)
Theorem resolve_separator_message
  (parse : pystr -> option datetime)
  (search : pystr -> option (list (pystr * datetime)))
  (b a : pystr) (dt : datetime) :
  ~ In bar b ->
  strip a <> [] ->
  parse (when_segment b) = Some dt ->
  _parse_when_and_message parse search (b ++ bar :: a)
  = Return (astimezone_utc dt, when_segment b, strip a).
Proof.
  intros Hb Ha Hp.
  rewrite (resolve_with_bar parse search b a Hb).
  now rewrite (is_empty_false _ Ha), Hp.
Qed.

Lemma resolve_separator_message_witness :
  _parse_when_and_message sample_parse sample_search
    (py "/r dans 1 minute " ++ bar :: py " tester ")
  = Return (mkDatetime 60000000 UTC, py "dans 1 minute", py "tester").
Proof.
  apply (resolve_separator_message sample_parse sample_search
           (py "/r dans 1 minute ") (py " tester ")
           (mkDatetime 3660000000 paris)).
  - apply contains_not_In. reflexivity.
  - vm_compute. discriminate.
  - reflexivity.
Defined.

(** C7. For an input with a separator whose text after the separator is
    blank once trimmed, the resolver raises [ValueError("Message vide.")],
    whatever the parser and the search would answer. *)
Theorem resolve_blank_message
  (parse : pystr -> option datetime)
  (search : pystr -> option (list (pystr * datetime)))
  (b a : pystr) :
  ~ In bar b ->
  strip a = [] ->
  _parse_when_and_message parse search (b ++ bar :: a)
  = Raise (ValueError message_vide).
Proof.
  intros Hb Ha.
  rewrite (resolve_with_bar parse search b a Hb).
  now rewrite Ha.
Qed.

Lemma resolve_blank_message_witness :
  _parse_when_and_message sample_parse sample_search
    (py "/r dans 1 minute " ++ bar :: py "  ")
  = Raise (ValueError (py "Message vide.")).
Proof.
  apply (resolve_blank_message sample_parse sample_search
           (py "/r dans 1 minute ") (py "  ")).
  - apply contains_not_In. reflexivity.
  - reflexivity.
Defined.

(** C10. The input is split at the first separator only.  When the text
    after the first separator holds further separators, the message is
    that whole text, separators included, with nothing but whitespace
    trimmed at its two ends; the parser is asked about the text before
    the first separator and about nothing else. *)
Theorem resolve_splits_at_first_separator
  (parse : pystr -> option datetime)
  (search : pystr -> option (list (pystr * datetime)))
  (b a : pystr) :
  ~ In bar b ->
  In bar a ->
  In bar (strip a)
  /\ (exists l r, a = l ++ strip a ++ r
                  /\ forallb isspace l = true /\ forallb isspace r = true)
  /\ _parse_when_and_message parse search (b ++ bar :: a)
     = match parse (when_segment b) with
       | None => Raise (ValueError date_non_comprise)
       | Some dt => Return (astimezone_utc dt, when_segment b, strip a)
       end.
Proof.
  intros Hb Ha.
  assert (Hin : In bar (strip a))
    by (apply in_strip_by_kept; [apply isspace_bar | exact Ha]).
  split; [exact Hin|]. split; [apply strip_by_split|].
  rewrite (resolve_with_bar parse search b a Hb).
  rewrite is_empty_false; [reflexivity|].
  intros E. rewrite E in Hin. exact Hin.
Qed.

Lemma resolve_splits_at_first_separator_witness :
  _parse_when_and_message sample_parse sample_search
    (py "/r dans 1 minute " ++ bar :: py " a | b || c ")
  = Return (mkDatetime 60000000 UTC, py "dans 1 minute", py "a | b || c").
Proof.
  apply (proj2 (proj2
    (resolve_splits_at_first_separator sample_parse sample_search
       (py "/r dans 1 minute ") (py " a | b || c ")
       ltac:(apply contains_not_In; reflexivity)
       ltac:(apply contains_In; reflexivity)))).
Defined.

(** C5. Whenever the resolver succeeds, in either mode, the datetime it
    returns carries the zone UTC, and it denotes the very instant that the
    parser (explicit mode) or the first search match (fallback) gave. *)
Theorem resolved_instant_is_utc
  (parse : pystr -> option datetime)
  (search : pystr -> option (list (pystr * datetime)))
  (raw phrase msg : pystr) (d : datetime) :
  _parse_when_and_message parse search raw = Return (d, phrase, msg) ->
  tz d = UTC
  /\ utcoffset (tz d) = 0%Z
  /\ exists d0,
       (parse phrase = Some d0
        \/ exists rest, search (command_text raw) = Some ((phrase, d0) :: rest))
       /\ d = astimezone_utc d0
       /\ instant d = instant d0.
Proof.
  unfold _parse_when_and_message.
  destruct (contains bar (command_text raw)).
  - destruct (map strip (split1 bar (command_text raw)))
      as [|w [|m [|x xs]]]; try discriminate.
    destruct (is_empty m); [discriminate|].
    destruct (parse w) as [d0|] eqn:Hp; [|discriminate].
    intros H. injection H as <- <- <-.
    repeat split. exists d0. split; [now left|].
    split; [reflexivity | apply instant_astimezone_utc].
  - destruct (search (command_text raw)) as [[|[mt d0] rest]|] eqn:Hs;
      try discriminate.
    intros H. injection H as <- <- _.
    repeat split. exists d0. split; [right; now exists rest|].
    split; [reflexivity | apply instant_astimezone_utc].
Qed.

Lemma resolved_instant_is_utc_witness :
  tz (mkDatetime 60000000 UTC) = UTC
  /\ utcoffset (tz (mkDatetime 60000000 UTC)) = 0%Z
  /\ exists d0,
       (sample_parse (py "dans 1 minute") = Some d0
        \/ exists rest,
             sample_search (command_text (py "/r dans 1 minute | tester"))
             = Some ((py "dans 1 minute", d0) :: rest))
       /\ mkDatetime 60000000 UTC = astimezone_utc d0
       /\ instant (mkDatetime 60000000 UTC) = instant d0.
Proof.
  apply (resolved_instant_is_utc sample_parse sample_search
           (py "/r dans 1 minute | tester") (py "dans 1 minute")
           (py "tester") (mkDatetime 60000000 UTC)).
  vm_compute. reflexivity.
Defined.

(** C3, as the specification states it, fails on the placeholder: for
    ["/r demain"], which has no separator and in which the search finds
    ["demain"], nothing is left of the text and the message is ["Rappel"],
    not ["Reminder"]. *)
Lemma fallback_placeholder_counterexample :
  contains bar (py "/r demain") = false
  /\ sample_search (command_text (py "/r demain"))
     = Some [(py "demain", mkDatetime 90000000000 paris)]
  /\ residual (py "demain") (command_text (py "/r demain")) = []
  /\ _parse_when_and_message sample_parse sample_search (py "/r demain")
     = Return (mkDatetime 86400000000 UTC, py "demain", py "Rappel")
  /\ _parse_when_and_message sample_parse sample_search (py "/r demain")
     <> Return (mkDatetime 86400000000 UTC, py "demain", py "Reminder").
Proof.
  repeat split; try (vm_compute; reflexivity).
  vm_compute. discriminate.
Qed.

(** C3, amended. For an input without a separator in which the search
    finds at least one phrase, the resolver succeeds with the first match.
    The message is the text of the command (the input without the leading
    [/r], trimmed) from which every occurrence of the matched phrase is
    removed and the characters of [" ,-–—:;"] are stripped at both ends,
    and it is ["Rappel"] when nothing is left, so it is never empty.  When
    the phrase occurs once in the text, what is removed is that
    occurrence and nothing else. *)
Theorem resolve_fallback_message
  (parse : pystr -> option datetime)
  (search : pystr -> option (list (pystr * datetime)))
  (raw match_text : pystr) (dt : datetime)
  (rest : list (pystr * datetime)) :
  ~ In bar raw ->
  search (command_text raw) = Some ((match_text, dt) :: rest) ->
  let removed := replace_with_empty match_text (command_text raw) in
  let trimmed := strip_chars (py " ,-–—:;") removed in
  let msg := if is_empty trimmed then py "Rappel" else trimmed in
  _parse_when_and_message parse search raw
  = Return (astimezone_utc dt, match_text, msg)
  /\ msg <> []
  /\ forall p s,
       command_text raw = p ++ match_text ++ s ->
       match_text <> [] ->
       (forall i, i < List.length p ->
                  startswith match_text (skipn i (command_text raw)) = false) ->
       (forall i, startswith match_text (skipn i s) = false) ->
       removed = p ++ s.
Proof.
  intros Hn Hs removed trimmed msg.
  split; [|split].
  - rewrite (resolve_without_bar parse search raw Hn), Hs. reflexivity.
  - unfold msg. destruct trimmed; simpl; [vm_compute|]; discriminate.
  - intros p s E Hm Hp Hrest. unfold removed. rewrite E in *.
    now apply replace_single_occurrence.
Qed.

Lemma resolve_fallback_message_witness :
  _parse_when_and_message sample_parse sample_search
    (py "/R demain, acheter du pain - ")
  = Return (mkDatetime 86400000000 UTC, py "demain", py "acheter du pain").
Proof.
  apply (proj1
    (resolve_fallback_message sample_parse sample_search
       (py "/R demain, acheter du pain - ") (py "demain")
       (mkDatetime 90000000000 paris) []
       ltac:(apply contains_not_In; reflexivity)
       ltac:(reflexivity))).
Defined.

(** C6, as it is stated, fails when the message is blank too: for
    ["/r banana |"] the text before the separator is not understood by
    the parser, and the resolver raises [ValueError("Message vide.")], not
    [ValueError("Date/heure non comprise.")]; the parser is not reached. *)
Lemma unparseable_time_counterexample :
  contains bar (py "/r banana |") = true
  /\ sample_parse (when_segment (py "/r banana ")) = None
  /\ _parse_when_and_message sample_parse sample_search (py "/r banana |")
     = Raise (ValueError (py "Message vide."))
  /\ _parse_when_and_message sample_parse sample_search (py "/r banana |")
     <> Raise (ValueError (py "Date/heure non comprise.")).
Proof.
  repeat split; try (vm_compute; reflexivity).
  vm_compute. discriminate.
Qed.

(** C6, amended. For an input with a separator the result does not depend
    on the search at all: with a message that is not blank and a time
    expression the parser does not understand the resolver raises
    [ValueError("Date/heure non comprise.")], and with a blank message it
    raises [ValueError("Message vide.")]; it never falls back.  For an
    input without a separator the first match of the search decides the
    result, whatever the later matches are. *)
Theorem fallback_only_without_separator
  (parse : pystr -> option datetime)
  (search1 search2 : pystr -> option (list (pystr * datetime)))
  (b a raw' match_text : pystr) (dt : datetime)
  (rest1 rest2 : list (pystr * datetime)) :
  ~ In bar b ->
  ~ In bar raw' ->
  search1 (command_text raw') = Some ((match_text, dt) :: rest1) ->
  search2 (command_text raw') = Some ((match_text, dt) :: rest2) ->
  _parse_when_and_message parse search1 (b ++ bar :: a)
  = _parse_when_and_message parse search2 (b ++ bar :: a)
  /\ (strip a <> [] -> parse (when_segment b) = None ->
      _parse_when_and_message parse search1 (b ++ bar :: a)
      = Raise (ValueError (py "Date/heure non comprise.")))
  /\ (strip a = [] ->
      _parse_when_and_message parse search1 (b ++ bar :: a)
      = Raise (ValueError (py "Message vide.")))
  /\ _parse_when_and_message parse search1 raw'
     = _parse_when_and_message parse search2 raw'
  /\ exists msg,
       _parse_when_and_message parse search1 raw'
       = Return (astimezone_utc dt, match_text, msg).
Proof.
  intros Hb Hr H1 H2.
  rewrite !(resolve_with_bar parse _ b a Hb).
  rewrite !(resolve_without_bar parse _ raw' Hr), H1, H2.
  repeat split.
  - intros Ha Hp. now rewrite (is_empty_false _ Ha), Hp.
  - intros Ha. now rewrite Ha.
  - eexists. reflexivity.
Qed.

Lemma fallback_only_without_separator_witness :
  _parse_when_and_message sample_parse sample_search
    (py "/r banana " ++ bar :: py " eat it")
  = Raise (ValueError (py "Date/heure non comprise.")).
Proof.
  apply (proj1 (proj2
    (fallback_only_without_separator sample_parse
       sample_search
       (fun _ => Some [(py "demain", mkDatetime 90000000000 paris);
                       (py "matin", mkDatetime 0 UTC)])
       (py "/r banana ") (py " eat it") (py "demain matin") (py "demain")
       (mkDatetime 90000000000 paris) [] [(py "matin", mkDatetime 0 UTC)]
       ltac:(apply contains_not_In; reflexivity)
       ltac:(apply contains_not_In; reflexivity)
       ltac:(reflexivity)
       ltac:(reflexivity)))).
  - vm_compute. discriminate.
  - reflexivity.
Defined.

(** ** Lemmas on the timestamp *)

Lemma div_nearest_even_bounds (a b : Z) :
  (0 <= a)%Z -> (0 < b)%Z ->
  (2 * a - b <= 2 * (b * div_nearest_even a b) <= 2 * a + b)%Z.
Proof.
  intros Ha Hb. unfold div_nearest_even.
  pose proof (Z.div_mod a b ltac:(lia)) as E.
  pose proof (Z.mod_pos_bound a b Hb) as Hr.
  set (q := (a / b)%Z) in *. set (r := (a mod b)%Z) in *.
  assert (E1 : (b * (q + 1) = b * q + b)%Z) by ring.
  destruct (Z.ltb_spec (2 * r) b); [lia|].
  destruct (Z.ltb_spec b (2 * r)); [lia|].
  destruct (Z.even q); lia.
Qed.

Lemma log2_quotient_small (p : Z) :
  (0 < p < 2 ^ 34 * 1000000)%Z -> (log2_quotient p 1000000 <= 33)%Z.
Proof.
  intros [Hp Hlt]. unfold log2_quotient.
  change (Z.log2 1000000) with 19%Z.
  assert (Hl : (Z.log2 p < 54)%Z).
  { apply Z.log2_lt_pow2; [exact Hp|].
    change (2 ^ 34 * 1000000)%Z with 17179869184000000%Z in Hlt.
    change (2 ^ 54)%Z with 18014398509481984%Z. lia. }
  set (k := (Z.log2 p - 19)%Z) in *.
  destruct (Z.leb_spec 0 k) as [Hk|Hk].
  - destruct (Z.leb_spec (1000000 * 2 ^ k) p) as [Hq|Hq]; [|lia].
    destruct (Z.le_gt_cases k 33) as [H33|H33]; [exact H33|].
    assert (H2 : (2 ^ 34 <= 2 ^ k)%Z) by (apply Z.pow_le_mono_r; lia).
    lia.
  - destruct (1000000 <=? p * 2 ^ (- k))%Z; lia.
Qed.

(** Where the double has bits enough for the microseconds, the integer
    part of the quotient is not touched by the rounding. *)
Lemma int_true_div_pos_exact (p : Z) :
  (0 < p < 2 ^ 34 * 1000000)%Z ->
  int_true_div_pos p 1000000 = (p / 1000000)%Z.
Proof.
  intros Hp. pose proof (log2_quotient_small p Hp) as Hk.
  unfold int_true_div_pos.
  set (k := log2_quotient p 1000000) in *.
  destruct (Z.leb_spec 0 (k - 52)) as [H|_]; [lia|].
  set (S := (2 ^ (- (k - 52)))%Z).
  assert (HS : (524288 <= S)%Z).
  { change 524288%Z with (2 ^ 19)%Z. apply Z.pow_le_mono_r; lia. }
  assert (HpS : (0 <= p * S)%Z) by (apply Z.mul_nonneg_nonneg; lia).
  pose proof (div_nearest_even_bounds (p * S) 1000000 HpS ltac:(lia)) as Hm.
  set (m := div_nearest_even (p * S) 1000000) in *.
  pose proof (Z.div_mod p 1000000 ltac:(lia)) as E.
  pose proof (Z.mod_pos_bound p 1000000 ltac:(lia)) as Hr.
  set (s := (p / 1000000)%Z) in *. set (r := (p mod 1000000)%Z) in *.
  assert (EX : (p * S = 1000000 * (s * S) + r * S)%Z) by (rewrite E; ring).
  assert (HY0 : (0 <= r * S)%Z) by (apply Z.mul_nonneg_nonneg; lia).
  assert (HY1 : (r * S <= 999999 * S)%Z)
    by (apply Z.mul_le_mono_nonneg_r; lia).
  symmetry. apply (Z.div_unique m S s (m - S * s)); [|ring].
  left. replace (S * s)%Z with (s * S)%Z by ring. lia.
Qed.

(** Less than [2 ** 34] seconds from the epoch, that is until the year
    2514, [int(d.timestamp())] is the number of seconds truncated towards
    zero. *)
Lemma int_timestamp_in_range (d : datetime) :
  (Z.abs (instant d) < 2 ^ 34 * 1000000)%Z ->
  int_timestamp d = Z.quot (instant d) 1000000.
Proof.
  unfold int_timestamp, int_true_div. intros H.
  destruct (instant d) as [|p|p] eqn:E.
  - reflexivity.
  - rewrite int_true_div_pos_exact; [|lia].
    symmetry. apply Z.quot_div_nonneg; lia.
  - change (- Z.neg p)%Z with (Z.pos p).
    rewrite int_true_div_pos_exact; [|lia].
    change (Z.neg p) with (- Z.pos p)%Z.
    rewrite Z.quot_opp_l; [|lia].
    f_equal. symmetry. apply Z.quot_div_nonneg; lia.
Qed.

(** Later the double is too coarse: on 2600-06-01 at 00:00:00.999999 the
    second is already the next one. *)
Example int_timestamp_rounds_up_late :
  int_timestamp (mkDatetime 19893945600999999 UTC) = 19893945601%Z
  /\ Z.quot 19893945600999999 1000000 = 19893945600%Z.
Proof. split; reflexivity. Qed.

Example int_timestamp_around_epoch :
  int_timestamp (mkDatetime (-999999) UTC) = 0%Z
  /\ int_timestamp (mkDatetime 999999 UTC) = 0%Z
  /\ int_timestamp (mkDatetime (-1000000) UTC) = (-1)%Z.
Proof. repeat split; reflexivity. Qed.

(** ** Lemmas on the handler *)

Lemma sub_now_at (w : datetime) (k : Z) :
  sub w (now_at k) = (instant w - k)%Z.
Proof. unfold sub, now_at, instant. simpl. lia. Qed.

Lemma schedule_too_soon (ext : External) (chat_id : Z) (w : datetime)
  (msg : pystr) (c : Context) :
  (instant w - clock ext < min_delay)%Z ->
  schedule ext chat_id w msg c = (Raise (ValueError trop_proche), c).
Proof.
  intros H. unfold schedule. rewrite sub_now_at.
  destruct (Z.ltb_spec (instant w - clock ext) min_delay); [reflexivity | lia].
Qed.

Lemma schedule_late_enough (ext : External) (chat_id : Z) (w : datetime)
  (msg : pystr) (c : Context) :
  (min_delay <= instant w - clock ext)%Z ->
  schedule ext chat_id w msg c
  = run_once ext
      (mkJob (instant w - clock ext) chat_id msg (job_name chat_id w)) c.
Proof.
  intros H. unfold schedule. rewrite sub_now_at.
  destruct (Z.ltb_spec (instant w - clock ext) min_delay); [lia | reflexivity].
Qed.

(** The two outcomes of the registration: it raises and nothing has
    changed, or the job is in the queue. *)
Lemma r_register_cases (ext : External) (update : Update) (c : Context) :
  let chat_id := effective_chat_id update in
  (exists e, r_register ext update c = (Raise e, c))
  \/ (exists w h m,
        _parse_when_and_message (dateparser_parse ext) (search_dates ext)
          (message_text update) = Return (w, h, m)
        /\ (min_delay <= instant w - clock ext)%Z
        /\ run_once_raises ext (job_queue c)
             (mkJob (instant w - clock ext) chat_id m (job_name chat_id w))
           = None
        /\ r_register ext update c
           = (Return (w, h, m),
              mkContext
                (job_queue c
                 ++ [mkJob (instant w - clock ext) chat_id m
                       (job_name chat_id w)])
                (sent c))).
Proof.
  intros chat_id. unfold r_register, bind, lift.
  destruct (_parse_when_and_message _ _ _) as [[[w h] m]|e0] eqn:Hp;
    [|left; now exists e0].
  destruct (Z.lt_ge_cases (instant w - clock ext) min_delay) as [Hlt|Hge].
  - left. rewrite (schedule_too_soon ext _ w m c Hlt). now eexists.
  - rewrite (schedule_late_enough ext _ w m c Hge). unfold run_once.
    fold chat_id.
    destruct (run_once_raises _ _ _) eqn:Hq; [left; now eexists|].
    right. exists w, h, m. repeat split; assumption.
Qed.

(** When the registration raises, so does the [try] block, and the
    handler answers with the one message and leaves the job queue as it
    was. *)
Lemma r_cmd_on_register_error (ext : External) (update : Update)
  (c : Context) (e : exn) :
  fst (r_register ext update c) = Raise e ->
  r_try ext update c = (Raise e, c)
  /\ r_cmd ext update c
     = (Return tt,
        mkContext (job_queue c)
          (sent c ++ [(effective_chat_id update, pas_compris)])).
Proof.
  intros H.
  destruct (r_register_cases ext update c)
    as [[e0 E]|[w [h [m [_ [_ [_ E]]]]]]]; rewrite E in H; simpl in H;
    [|discriminate].
  injection H as ->.
  unfold r_cmd, try_except, r_try, bind. rewrite E. now split.
Qed.

(** The three outcomes of a request. *)
Lemma r_cmd_cases (ext : External) (update : Update) (c : Context) :
  let chat_id := effective_chat_id update in
  (exists e,
     r_register ext update c = (Raise e, c)
     /\ r_cmd ext update c
        = (Return tt,
           mkContext (job_queue c) (sent c ++ [(chat_id, pas_compris)])))
  \/ (exists w h m,
        _parse_when_and_message (dateparser_parse ext) (search_dates ext)
          (message_text update) = Return (w, h, m)
        /\ (min_delay <= instant w - clock ext)%Z
        /\ run_once_raises ext (job_queue c)
             (mkJob (instant w - clock ext) chat_id m (job_name chat_id w))
           = None
        /\ ((reply_raises ext (confirmation ext w h m) = None
             /\ r_cmd ext update c
                = (Return tt,
                   mkContext
                     (job_queue c
                      ++ [mkJob (instant w - clock ext) chat_id m
                            (job_name chat_id w)])
                     (sent c ++ [(chat_id, confirmation ext w h m)])))
            \/ (exists detail,
                  reply_raises ext (confirmation ext w h m) = Some detail
                  /\ fst (r_try ext update c) = Raise (ReplyError detail)
                  /\ r_cmd ext update c
                     = (Return tt,
                        mkContext
                          (job_queue c
                           ++ [mkJob (instant w - clock ext) chat_id m
                                 (job_name chat_id w)])
                          (sent c ++ [(chat_id, pas_compris)]))))).
Proof.
  intros chat_id.
  destruct (r_register_cases ext update c)
    as [[e E]|[w [h [m [Hp [Hd [Hq E]]]]]]].
  - left. exists e. split; [exact E|].
    apply (r_cmd_on_register_error ext update c e). now rewrite E.
  - right. exists w, h, m. repeat split; try assumption.
    unfold r_cmd, try_except, r_try, bind. rewrite E.
    unfold reply_text. fold chat_id.
    destruct (reply_raises ext (confirmation ext w h m)) as [detail|].
    + right. exists detail. now repeat split.
    + left. now split.
Qed.

Lemma r_cmd_returns (ext : External) (update : Update) (c : Context) :
  fst (r_cmd ext update c) = Return tt.
Proof.
  destruct (r_cmd_cases ext update c)
    as [[e [_ ->]]
       |[w [h [m [_ [_ [_ [[_ ->]|[detail [_ [_ ->]]]]]]]]]]];
    reflexivity.
Qed.

(** Whatever is raised in the [try] block, the answer is the one
    message. *)
Lemma r_cmd_reply_on_error (ext : External) (update : Update) (c : Context)
  (e : exn) :
  fst (r_try ext update c) = Raise e ->
  sent (snd (r_cmd ext update c))
  = sent c ++ [(effective_chat_id update, pas_compris)].
Proof.
  intros H.
  destruct (r_cmd_cases ext update c)
    as [[e0 [_ ->]]
       |[w [h [m [_ [_ [_ [[Hr E]|[detail [_ [_ ->]]]]]]]]]]];
    try reflexivity.
  exfalso. revert H. revert E.
  unfold r_cmd, try_except.
  destruct (r_try ext update c) as [[[]|e1] c1]; simpl;
    [discriminate|].
  intros E _. injection E as E1 E2.
  apply (f_equal (fun l => last l (0%Z, []))) in E2.
  rewrite !last_last in E2. injection E2 as E2. discriminate.
Qed.

(** A request that resolves, passes the validation and is taken by the
    job queue leaves its job there, whether or not the confirmation goes
    through. *)
Lemma r_cmd_registers (ext : External) (update : Update) (c : Context)
  (w : datetime) (h m : pystr) :
  let chat_id := effective_chat_id update in
  let job := mkJob (instant w - clock ext) chat_id m (job_name chat_id w) in
  _parse_when_and_message (dateparser_parse ext) (search_dates ext)
    (message_text update) = Return (w, h, m) ->
  (min_delay <= instant w - clock ext)%Z ->
  run_once_raises ext (job_queue c) job = None ->
  job_queue (snd (r_cmd ext update c)) = job_queue c ++ [job]
  /\ exists text,
       sent (snd (r_cmd ext update c)) = sent c ++ [(chat_id, text)].
Proof.
  intros chat_id job Hp Hd Hq.
  destruct (r_cmd_cases ext update c)
    as [[e [E _]]
       |[w' [h' [m' [Hp' [_ [_ [[_ E]|[detail [_ [_ E]]]]]]]]]]].
  - exfalso. revert E. unfold r_register, bind, lift. rewrite Hp.
    rewrite (schedule_late_enough ext _ w m c Hd). unfold run_once.
    fold chat_id. fold job. rewrite Hq. discriminate.
  - rewrite Hp in Hp'. injection Hp' as <- <- <-. rewrite E. simpl.
    split; [reflexivity | now eexists].
  - rewrite Hp in Hp'. injection Hp' as <- <- <-. rewrite E. simpl.
    split; [reflexivity | now eexists].
Qed.

(** The same, when the confirmation goes through. *)
Lemma r_cmd_on_success (ext : External) (update : Update) (c : Context)
  (w : datetime) (h m : pystr) :
  let chat_id := effective_chat_id update in
  let job := mkJob (instant w - clock ext) chat_id m (job_name chat_id w) in
  _parse_when_and_message (dateparser_parse ext) (search_dates ext)
    (message_text update) = Return (w, h, m) ->
  (min_delay <= instant w - clock ext)%Z ->
  run_once_raises ext (job_queue c) job = None ->
  reply_raises ext (confirmation ext w h m) = None ->
  r_cmd ext update c
  = (Return tt,
     mkContext (job_queue c ++ [job])
       (sent c ++ [(chat_id, confirmation ext w h m)])).
Proof.
  intros chat_id job Hp Hd Hq Hr.
  unfold r_cmd, try_except, r_try, r_register, bind, lift. rewrite Hp.
  rewrite (schedule_late_enough ext _ w m c Hd). unfold run_once.
  fold chat_id. fold job. rewrite Hq. simpl.
  unfold reply_text. fold chat_id. now rewrite Hr.
Qed.

(** ** Properties of the scheduling *)

(** C1. For every resolved instant and every reading of the clock, the
    scheduling raises [ValueError("La date/heure est trop proche ou déjà
    passée.")] exactly when the instant is less than five seconds after the
    clock, which covers 4.999 s and every negative difference; nothing is
    registered then.  At five seconds and above the job is handed to the
    job queue with that difference as its delay, and the scheduling
    succeeds once the queue has taken it. *)
Theorem schedule_validates_delay (ext : External) (chat_id : Z)
  (when_utc : datetime) (msg : pystr) (c : Context) :
  let delta := (instant when_utc - clock ext)%Z in
  let job := mkJob delta chat_id msg (job_name chat_id when_utc) in
  (fst (schedule ext chat_id when_utc msg c) = Raise (ValueError trop_proche)
   <-> (delta < 5000000)%Z)
  /\ ((delta < 5000000)%Z ->
      schedule ext chat_id when_utc msg c = (Raise (ValueError trop_proche), c))
  /\ ((delta = 4999000)%Z \/ (delta < 0)%Z ->
      fst (schedule ext chat_id when_utc msg c) = Raise (ValueError trop_proche))
  /\ ((5000000 <= delta)%Z ->
      run_once_raises ext (job_queue c) job = None ->
      schedule ext chat_id when_utc msg c
      = (Return tt, mkContext (job_queue c ++ [job]) (sent c))).
Proof.
  intros delta job.
  assert (Hlt : (delta < 5000000)%Z ->
                schedule ext chat_id when_utc msg c
                = (Raise (ValueError trop_proche), c))
    by (intros H; now apply schedule_too_soon).
  split; [split|split; [exact Hlt|split]].
  - intros H.
    destruct (Z.lt_ge_cases delta 5000000) as [Hd|Hd]; [exact Hd|].
    exfalso. revert H.
    rewrite (schedule_late_enough ext chat_id when_utc msg c Hd).
    unfold run_once. destruct (run_once_raises _ _ _); discriminate.
  - intros H. now rewrite (Hlt H).
  - intros H. rewrite Hlt; [reflexivity | lia].
  - intros Hd Hq.
    rewrite (schedule_late_enough ext chat_id when_utc msg c Hd).
    unfold run_once. fold delta. fold job. now rewrite Hq.
Qed.

Lemma schedule_validates_delay_witness :
  fst (schedule (sample_ext 1000 accept_all) 7 (mkDatetime 5000000 UTC)
         (py "tester") empty_context)
  = Raise (ValueError trop_proche)
  /\ fst (schedule (sample_ext 1000 accept_all) 7 (mkDatetime 999 UTC)
            (py "tester") empty_context)
     = Raise (ValueError trop_proche)
  /\ schedule (sample_ext 1000 accept_all) 7 (mkDatetime 5001000 UTC)
       (py "tester") empty_context
     = (Return tt,
        mkContext [mkJob 5000000 7 (py "tester") (py "reminder-7-5")] []).
Proof.
  split; [|split].
  - apply (proj1 (proj2 (proj2
      (schedule_validates_delay (sample_ext 1000 accept_all) 7
         (mkDatetime 5000000 UTC) (py "tester") empty_context)))).
    left. reflexivity.
  - apply (proj1 (proj2 (proj2
      (schedule_validates_delay (sample_ext 1000 accept_all) 7
         (mkDatetime 999 UTC) (py "tester") empty_context)))).
    right. reflexivity.
  - apply (proj2 (proj2 (proj2
      (schedule_validates_delay (sample_ext 1000 accept_all) 7
         (mkDatetime 5001000 UTC) (py "tester") empty_context)))).
    + vm_compute. discriminate.
    + reflexivity.
Defined.

(** C8. Every job the handler registers has a delay of at least five
    seconds when it is created: the bound holds for a job added by one
    request, hence for the whole queue after any conversation.  When the
    [try] block raises before the job is registered (the text is not
    resolved, the validation fails, the job queue refuses), and in
    particular when the validation fails, the job queue is left as it
    was. *)
Theorem registered_jobs_respect_min_delay
  (reqs : list (External * Update)) (ext : External) (update : Update)
  (c : Context) :
  Forall (fun j => (5000000 <= when j)%Z) (job_queue c) ->
  Forall (fun j => (5000000 <= when j)%Z) (job_queue (handle_all reqs c))
  /\ (forall j, In j (job_queue (snd (r_cmd ext update c))) ->
        In j (job_queue c)
        \/ exists w h m,
             _parse_when_and_message (dateparser_parse ext) (search_dates ext)
               (message_text update) = Return (w, h, m)
             /\ when j = (instant w - clock ext)%Z
             /\ (5000000 <= when j)%Z)
  /\ (forall e, fst (r_register ext update c) = Raise e ->
        job_queue (snd (r_cmd ext update c)) = job_queue c)
  /\ (forall w h m,
        _parse_when_and_message (dateparser_parse ext) (search_dates ext)
          (message_text update) = Return (w, h, m) ->
        (instant w - clock ext < 5000000)%Z ->
        fst (r_try ext update c) = Raise (ValueError trop_proche)
        /\ job_queue (snd (r_cmd ext update c)) = job_queue c).
Proof.
  intros Hinv.
  assert (Herr : forall e, fst (r_register ext update c) = Raise e ->
                 job_queue (snd (r_cmd ext update c)) = job_queue c).
  { intros e He.
    destruct (r_cmd_on_register_error ext update c e He) as [_ ->].
    reflexivity. }
  split; [|split; [|split; [exact Herr|]]].
  - clear ext update Herr. revert c Hinv.
    induction reqs as [|[ext update] reqs IH]; intros c Hinv; [exact Hinv|].
    simpl. apply IH.
    destruct (r_cmd_cases ext update c)
      as [[e [_ ->]]
         |[w [h [m [_ [Hd [_ [[_ ->]|[detail [_ [_ ->]]]]]]]]]]];
      simpl; [exact Hinv | |];
      (apply Forall_app; split; [exact Hinv|];
       constructor; [exact Hd | constructor]).
  - intros j.
    destruct (r_cmd_cases ext update c)
      as [[e [_ ->]]
         |[w [h [m [Hp [Hd [_ [[_ ->]|[detail [_ [_ ->]]]]]]]]]]];
      simpl; [tauto | |];
      (intros Hj; apply in_app_or in Hj as [Hj|[<-|[]]]; [now left|];
       right; exists w, h, m; repeat split; assumption).
  - intros w h m Hp Hd.
    assert (Hr : fst (r_register ext update c)
                 = Raise (ValueError trop_proche)).
    { unfold r_register, bind, lift. rewrite Hp.
      now rewrite (schedule_too_soon ext _ w m c Hd). }
    destruct (r_cmd_on_register_error ext update c _ Hr) as [Ht _].
    split; [now rewrite Ht | exact (Herr _ Hr)].
Qed.

Lemma registered_jobs_respect_min_delay_witness :
  Forall (fun j => (5000000 <= when j)%Z)
    (job_queue
       (handle_all
          [(sample_ext 0 accept_all, mkUpdate (py "/r dans 1 minute | a") 7);
           (sample_ext 55000001 accept_all,
            mkUpdate (py "/r dans 1 minute | b") 7);
           (sample_ext 30000000 accept_all, mkUpdate (py "/r demain") 8)]
          empty_context)).
Proof.
  apply (proj1
    (registered_jobs_respect_min_delay
       [(sample_ext 0 accept_all, mkUpdate (py "/r dans 1 minute | a") 7);
        (sample_ext 55000001 accept_all,
         mkUpdate (py "/r dans 1 minute | b") 7);
        (sample_ext 30000000 accept_all, mkUpdate (py "/r demain") 8)]
       (sample_ext 0 accept_all) (mkUpdate (py "/r dans 1 minute | a") 7)
       empty_context (Forall_nil _))).
Defined.

(** C9. The name of a job is a function of the chat and of
    [int(when_utc.timestamp())], the epoch value of the trigger instant:
    two requests of the same chat whose instants have the same epoch
    value, as two requests for the same instant have, give their jobs the
    same name, whatever their messages and clocks.  Less than [2 ** 34]
    seconds from the epoch that value is the number of whole seconds of
    the instant, truncated towards zero.  Both requests run to their end
    and are answered; with a job queue that takes every job both jobs are
    registered, under the one name. *)
Theorem job_identifier_deterministic (ext1 ext2 : External)
  (u1 u2 : Update) (c : Context) (w1 w2 : datetime) (h1 h2 m1 m2 : pystr) :
  _parse_when_and_message (dateparser_parse ext1) (search_dates ext1)
    (message_text u1) = Return (w1, h1, m1) ->
  _parse_when_and_message (dateparser_parse ext2) (search_dates ext2)
    (message_text u2) = Return (w2, h2, m2) ->
  effective_chat_id u1 = effective_chat_id u2 ->
  int_timestamp w1 = int_timestamp w2 ->
  (5000000 <= instant w1 - clock ext1)%Z ->
  (5000000 <= instant w2 - clock ext2)%Z ->
  let chat_id := effective_chat_id u1 in
  let c1 := snd (r_cmd ext1 u1 c) in
  let c2 := snd (r_cmd ext2 u2 c1) in
  job_name chat_id w1 = job_name (effective_chat_id u2) w2
  /\ ((Z.abs (instant w1) < 2 ^ 34 * 1000000)%Z ->
      job_name chat_id w1
      = py "reminder-" ++ str_of_int chat_id ++ py "-"
        ++ str_of_int (Z.quot (instant w1) 1000000))
  /\ fst (r_cmd ext1 u1 c) = Return tt
  /\ fst (r_cmd ext2 u2 c1) = Return tt
  /\ ((forall q j, run_once_raises ext1 q j = None) ->
      (forall q j, run_once_raises ext2 q j = None) ->
      exists j1 j2 text1 text2,
        job_queue c2 = job_queue c ++ [j1; j2]
        /\ name j1 = job_name chat_id w1
        /\ name j2 = name j1
        /\ sent c2 = sent c ++ [(chat_id, text1); (chat_id, text2)]).
Proof.
  intros Hp1 Hp2 Hchat Hts Hd1 Hd2 chat_id c1 c2.
  assert (Hname : job_name chat_id w1 = job_name (effective_chat_id u2) w2).
  { unfold job_name, chat_id. now rewrite Hchat, Hts. }
  split; [exact Hname|]. split.
  { intros Hrange. unfold job_name.
    now rewrite (int_timestamp_in_range w1 Hrange). }
  split; [apply r_cmd_returns|]. split; [apply r_cmd_returns|].
  intros Hq1 Hq2. unfold c2, c1.
  destruct (r_cmd_registers ext1 u1 c w1 h1 m1 Hp1 Hd1 (Hq1 _ _))
    as [Eq1 [text1 Es1]].
  destruct (r_cmd_registers ext2 u2 (snd (r_cmd ext1 u1 c)) w2 h2 m2
              Hp2 Hd2 (Hq2 _ _)) as [Eq2 [text2 Es2]].
  do 2 eexists. exists text1, text2.
  rewrite Eq2, Eq1, Es2, Es1, <- !app_assoc. simpl.
  repeat split.
  - simpl. fold chat_id. now rewrite <- Hname.
  - unfold chat_id. now rewrite Hchat.
Qed.

Lemma job_identifier_deterministic_witness :
  exists j1 j2 text1 text2,
    job_queue
      (snd (r_cmd (refusing_ext 2000000)
              (mkUpdate (py "/r dans 1 minute | b") 7)
              (snd (r_cmd (sample_ext 0 accept_all)
                      (mkUpdate (py "/r dans 1 minute | a") 7)
                      empty_context))))
    = job_queue empty_context ++ [j1; j2]
    /\ name j1 = job_name 7 (mkDatetime 60000000 UTC)
    /\ name j2 = name j1
    /\ sent
         (snd (r_cmd (refusing_ext 2000000)
                 (mkUpdate (py "/r dans 1 minute | b") 7)
                 (snd (r_cmd (sample_ext 0 accept_all)
                         (mkUpdate (py "/r dans 1 minute | a") 7)
                         empty_context))))
       = sent empty_context ++ [(7%Z, text1); (7%Z, text2)].
Proof.
  apply (proj2 (proj2 (proj2 (proj2
    (job_identifier_deterministic
       (sample_ext 0 accept_all) (refusing_ext 2000000)
       (mkUpdate (py "/r dans 1 minute | a") 7)
       (mkUpdate (py "/r dans 1 minute | b") 7)
       empty_context
       (mkDatetime 60000000 UTC) (mkDatetime 60000000 UTC)
       (py "dans 1 minute") (py "dans 1 minute") (py "a") (py "b")
       ltac:(vm_compute; reflexivity) ltac:(vm_compute; reflexivity)
       ltac:(reflexivity) ltac:(reflexivity)
       ltac:(vm_compute; discriminate) ltac:(vm_compute; discriminate))))));
    reflexivity.
Defined.

(** C4, as it is stated, fails: when the job queue refuses the job, the
    exception leaves the registration call, and the handler catches it
    with all the others.  The answer is the one given for a text that is
    not understood and for an instant that is too close. *)
Lemma registration_failure_counterexample :
  schedule (sample_ext 0 reject_all) 7 (mkDatetime 60000000 UTC) (py "tester")
    empty_context
  = (Raise (JobQueueError (py "SchedulerNotRunningError")), empty_context)
  /\ r_cmd (sample_ext 0 reject_all)
       (mkUpdate (py "/r dans 1 minute | tester") 7) empty_context
     = (Return tt, mkContext [] [(7%Z, pas_compris)])
  /\ r_cmd (sample_ext 0 accept_all)
       (mkUpdate (py "/r banana | tester") 7) empty_context
     = (Return tt, mkContext [] [(7%Z, pas_compris)])
  /\ r_cmd (sample_ext 59000000 accept_all)
       (mkUpdate (py "/r dans 1 minute | tester") 7) empty_context
     = (Return tt, mkContext [] [(7%Z, pas_compris)]).
Proof.
  repeat split; vm_compute; reflexivity.
Qed.

(** C4, amended. When the job queue raises while the job is registered,
    the exception leaves the registration as it is, it is caught at the
    request boundary like every other one, and the user is sent the same
    message as for a text that is not understood or an instant that is too
    close, as after any exception of the [try] block; no job is registered
    and no confirmation is sent. *)
Theorem registration_failure_reply (ext : External) (update : Update)
  (c : Context) (w : datetime) (h m detail : pystr) :
  let chat_id := effective_chat_id update in
  _parse_when_and_message (dateparser_parse ext) (search_dates ext)
    (message_text update) = Return (w, h, m) ->
  (5000000 <= instant w - clock ext)%Z ->
  run_once_raises ext (job_queue c)
    (mkJob (instant w - clock ext) chat_id m (job_name chat_id w))
  = Some detail ->
  fst (r_try ext update c) = Raise (JobQueueError detail)
  /\ r_cmd ext update c
     = (Return tt,
        mkContext (job_queue c) (sent c ++ [(chat_id, pas_compris)]))
  /\ forall ext' e,
       fst (r_try ext' update c) = Raise e ->
       sent (snd (r_cmd ext' update c)) = sent (snd (r_cmd ext update c)).
Proof.
  intros chat_id Hp Hd Hq.
  assert (Hr : fst (r_register ext update c) = Raise (JobQueueError detail)).
  { unfold r_register, bind, lift. rewrite Hp.
    rewrite (schedule_late_enough ext _ w m c Hd). unfold run_once.
    fold chat_id. now rewrite Hq. }
  destruct (r_cmd_on_register_error ext update c _ Hr) as [Ht Hc].
  split; [now rewrite Ht|]. split; [exact Hc|].
  intros ext' e He.
  rewrite (r_cmd_reply_on_error ext' update c e He). now rewrite Hc.
Qed.

Lemma registration_failure_reply_witness :
  r_cmd (sample_ext 0 reject_all)
    (mkUpdate (py "/r dans 1 minute | tester") 7) empty_context
  = (Return tt, mkContext [] [(7%Z, pas_compris)]).
Proof.
  apply (proj1 (proj2
    (registration_failure_reply (sample_ext 0 reject_all)
       (mkUpdate (py "/r dans 1 minute | tester") 7) empty_context
       (mkDatetime 60000000 UTC) (py "dans 1 minute") (py "tester")
       (py "SchedulerNotRunningError")
       ltac:(vm_compute; reflexivity)
       ltac:(vm_compute; discriminate)
       ltac:(reflexivity)))).
Defined.

(** ** Further lemmas on stripping *)

Section StrippingMore.

Variable p : char -> bool.

Lemma lstrip_by_all (w y : pystr) :
  forallb p w = true -> lstrip_by p (w ++ y) = lstrip_by p y.
Proof.
  induction w as [|d w IH]; simpl; [reflexivity|].
  intros H. apply andb_prop in H as [Hd Hw]. rewrite Hd. now apply IH.
Qed.

Lemma rstrip_by_all (y w : pystr) :
  forallb p w = true -> rstrip_by p (y ++ w) = rstrip_by p y.
Proof.
  intros H. unfold rstrip_by. rewrite rev_app_distr, lstrip_by_all;
    [reflexivity|].
  rewrite forallb_forall in *. intros c Hc. apply H. now apply in_rev.
Qed.

(** Blanks around a text do not change what stripping gives. *)
Lemma strip_by_padding (l x r : pystr) :
  forallb p l = true -> forallb p r = true ->
  strip_by p (l ++ x ++ r) = strip_by p x.
Proof.
  intros Hl Hr. unfold strip_by.
  rewrite (lstrip_by_all l (x ++ r) Hl).
  rewrite <- !lstrip_rstrip_comm.
  now rewrite (rstrip_by_all x r Hr).
Qed.

Lemma strip_by_idem (x : pystr) : strip_by p (strip_by p x) = strip_by p x.
Proof.
  unfold strip_by at 2. now rewrite strip_by_rstrip, strip_by_lstrip.
Qed.

(** A stripped text neither begins nor ends with a stripped character. *)
Lemma strip_by_ends_clean (x : pystr) : ends_clean p (strip_by p x).
Proof.
  split.
  - intros c t E. unfold strip_by in E. rewrite <- lstrip_rstrip_comm in E.
    pose proof (lstrip_by_head p (rstrip_by p x)) as H. now rewrite E in H.
  - intros t c E. unfold strip_by, rstrip_by in E.
    apply (f_equal (@rev char)) in E.
    rewrite rev_involutive, rev_app_distr in E. simpl in E.
    pose proof (lstrip_by_head p (rev (lstrip_by p x))) as H.
    now rewrite E in H.
Qed.

End StrippingMore.

Lemma in_remove_scan (old : pystr) (c : char) (s : pystr) (k : nat) :
  In c (remove_scan old k s) -> In c s.
Proof.
  revert k. induction s as [|d s IH]; intros k; simpl; [tauto|].
  destruct k as [|k].
  - destruct (startswith old (d :: s)).
    + intros H. right. exact (IH _ H).
    + intros [H|H]; [now left | right; exact (IH _ H)].
  - intros H. right. exact (IH _ H).
Qed.

Lemma in_replace_with_empty (old : pystr) (c : char) (s : pystr) :
  In c (replace_with_empty old s) -> In c s.
Proof.
  destruct old; simpl; [tauto | apply in_remove_scan].
Qed.

(** ** Further properties of the resolver *)

(** X1. Whatever the input, a message that the resolver returns is not
    empty: an empty one is refused in explicit mode and replaced by
    ["Rappel"] in fallback mode. *)
Theorem resolved_message_not_empty
  (parse : pystr -> option datetime)
  (search : pystr -> option (list (pystr * datetime)))
  (raw phrase msg : pystr) (d : datetime) :
  _parse_when_and_message parse search raw = Return (d, phrase, msg) ->
  msg <> [].
Proof.
  unfold _parse_when_and_message.
  destruct (contains bar (command_text raw)).
  - destruct (map strip (split1 bar (command_text raw)))
      as [|w [|m [|x xs]]]; try discriminate.
    destruct m as [|c m]; simpl; [discriminate|].
    destruct (parse w); [|discriminate].
    intros H. injection H as _ _ <-. discriminate.
  - destruct (search (command_text raw)) as [[|[mt d0] rest]|];
      try discriminate.
    intros H. injection H as _ _ <-.
    destruct (strip_chars boundary_chars _); simpl;
      [vm_compute|]; discriminate.
Qed.

Lemma resolved_message_not_empty_witness : py "Rappel" <> [].
Proof.
  apply (resolved_message_not_empty sample_parse sample_search
           (py "/r demain ;") (py "demain") (py "Rappel")
           (mkDatetime 86400000000 UTC)).
  vm_compute. reflexivity.
Defined.

(** X2. Each of the three [ValueError]s of the resolver tells its cause.
    It raises ["Message vide."] exactly when the input has a separator
    and the text after the first one is blank; ["Date/heure non
    comprise."] exactly when the input has a separator, that text is not
    blank and the parser gives [None] for the text before it;
    ["Date/heure non trouvée."] exactly when the input has no separator
    and the search gives [None] or an empty list.  The unpacking of the
    two pieces of the split never fails. *)
Theorem resolver_error_causes
  (parse : pystr -> option datetime)
  (search : pystr -> option (list (pystr * datetime)))
  (raw : pystr) :
  (_parse_when_and_message parse search raw
   = Raise (ValueError (py "Message vide."))
   <-> exists b a, raw = b ++ bar :: a /\ ~ In bar b /\ strip a = [])
  /\ (_parse_when_and_message parse search raw
      = Raise (ValueError (py "Date/heure non comprise."))
      <-> exists b a,
            raw = b ++ bar :: a /\ ~ In bar b /\ strip a <> []
            /\ parse (when_segment b) = None)
  /\ (_parse_when_and_message parse search raw
      = Raise (ValueError (py "Date/heure non trouvée."))
      <-> ~ In bar raw
          /\ (search (command_text raw) = None
              \/ search (command_text raw) = Some []))
  /\ _parse_when_and_message parse search raw
     <> Raise (ValueError
                 (py "not enough values to unpack (expected 2, got 1)")).
Proof.
  assert (Hex : forall b a (P : pystr -> pystr -> Prop),
            raw = b ++ bar :: a -> ~ In bar b ->
            (exists b' a', raw = b' ++ bar :: a' /\ ~ In bar b' /\ P b' a')
            -> P b a).
  { intros b a P E Hb [b' [a' [E' [Hb' HP]]]].
    assert (Hsplit : [b; a] = [b'; a']).
    { transitivity (split1 bar raw).
      - rewrite E. symmetry. now apply split1_at_first.
      - rewrite E'. now apply split1_at_first. }
    injection Hsplit as -> ->. exact HP. }
  destruct (in_dec N.eq_dec bar raw) as [Hin|Hn].
  - destruct (first_bar_split raw Hin) as [b [a [E Hb]]].
    assert (Hres := resolve_with_bar parse search b a Hb).
    rewrite <- E in Hres. rewrite Hres.
    split; [|split; [|split]].
    + split.
      * intros H. exists b, a. repeat split; try assumption.
        destruct (strip a); [reflexivity|]. simpl in H.
        destruct (parse (when_segment b)); [discriminate|].
        injection H as H. vm_compute in H. discriminate.
      * intros H.
        apply (Hex b a (fun _ a' => strip a' = []) E Hb) in H.
        now rewrite H.
    + split.
      * intros H. exists b, a.
        destruct (strip a) as [|x xs] eqn:Ea; simpl in H.
        -- injection H as H. vm_compute in H. discriminate.
        -- destruct (parse (when_segment b)); [discriminate|].
           repeat split; try assumption. discriminate.
      * intros H.
        apply (Hex b a (fun b' a' => strip a' <> []
                          /\ parse (when_segment b') = None) E Hb) in H.
        destruct H as [Ha Hp]. now rewrite (is_empty_false _ Ha), Hp.
    + split; [|intros [Hn _]; contradiction].
      intros H. exfalso.
      destruct (is_empty (strip a)).
      * injection H as H. vm_compute in H. discriminate.
      * destruct (parse (when_segment b)); [discriminate|].
        injection H as H. vm_compute in H. discriminate.
    + intros H.
      destruct (is_empty (strip a)).
      * injection H as H. vm_compute in H. discriminate.
      * destruct (parse (when_segment b)); [discriminate|].
        injection H as H. vm_compute in H. discriminate.
  - rewrite (resolve_without_bar parse search raw Hn).
    assert (Hno : forall P : pystr -> pystr -> Prop,
              ~ (exists b a, raw = b ++ bar :: a /\ P b a)).
    { intros P [b [a [E _]]]. apply Hn. rewrite E.
      apply in_or_app. right. now left. }
    split; [|split; [|split]].
    + split.
      * intros H. exfalso.
        destruct (search (command_text raw)) as [[|[mt d0] rest]|];
          try discriminate;
          injection H as H; vm_compute in H; discriminate.
      * intros H. exfalso.
        apply (Hno (fun b a => ~ In bar b /\ strip a = [])). exact H.
    + split.
      * intros H. exfalso.
        destruct (search (command_text raw)) as [[|[mt d0] rest]|];
          try discriminate;
          injection H as H; vm_compute in H; discriminate.
      * intros H. exfalso.
        apply (Hno (fun b a => ~ In bar b /\ strip a <> []
                               /\ parse (when_segment b) = None)).
        exact H.
    + split.
      * intros H. split; [exact Hn|].
        destruct (search (command_text raw)) as [[|[mt d0] rest]|];
          try discriminate; auto.
      * intros [_ [H|H]]; now rewrite H.
    + intros H.
      destruct (search (command_text raw)) as [[|[mt d0] rest]|];
        try discriminate;
        injection H as H; vm_compute in H; discriminate.
Qed.

Lemma strip_trigger_prefix (l s : pystr) (c2 : char) :
  forallb isspace l = true ->
  c2 = 114%N \/ c2 = 82%N ->
  strip (l ++ 47%N :: c2 :: s) = 47%N :: c2 :: rstrip_by isspace s.
Proof.
  intros Hl Hc. unfold strip, strip_by.
  rewrite (lstrip_by_all isspace l _ Hl).
  assert (H2 : isspace c2 = false) by (destruct Hc; subst; reflexivity).
  change (lstrip_by isspace (47%N :: c2 :: s)) with ([47%N] ++ c2 :: s).
  exact (rstrip_by_stop isspace [47%N] s c2 H2).
Qed.

(** X3. The command is taken off once, whatever the case of its letter
    and whatever follows it, even a letter: after blanks and [/r] or [/R]
    the text of the command is the rest of the input, trimmed.  An input
    that does not begin with the command is only trimmed. *)
Theorem command_text_removes_trigger (l s raw : pystr) (c2 : char) :
  forallb isspace l = true ->
  c2 = 114%N \/ c2 = 82%N ->
  has_trigger (strip raw) = false ->
  command_text (l ++ 47%N :: c2 :: s) = strip s
  /\ command_text raw = strip raw.
Proof.
  intros Hl Hc Hraw. unfold command_text. split.
  - rewrite (strip_trigger_prefix l s c2 Hl Hc). unfold re_sub_trigger.
    assert (E : ((47 =? 47) && ((c2 =? 114) || (c2 =? 82)))%N = true)
      by (destruct Hc; subst; reflexivity).
    rewrite E. unfold strip.
    now rewrite strip_by_lstrip, strip_by_rstrip.
  - assert (E : re_sub_trigger (strip raw) = strip raw).
    { revert Hraw. unfold has_trigger, re_sub_trigger.
      destruct (strip raw) as [|c1 [|c3 rest]]; try reflexivity.
      now intros ->. }
    rewrite E. apply strip_by_idem.
Qed.

Lemma command_text_removes_trigger_witness :
  command_text (py "  " ++ 47%N :: 82%N :: py "emind  moi ") = py "emind  moi"
  /\ command_text (py " r/ demain ") = py "r/ demain".
Proof.
  apply (command_text_removes_trigger (py "  ") (py "emind  moi ")
           (py " r/ demain ") 82%N); [reflexivity | now right | reflexivity].
Defined.

(** X4. Blanks before and after the input are of no consequence: the
    resolver gives the same result with and without them. *)
Theorem resolver_ignores_outer_blanks
  (parse : pystr -> option datetime)
  (search : pystr -> option (list (pystr * datetime)))
  (l raw r : pystr) :
  forallb isspace l = true ->
  forallb isspace r = true ->
  _parse_when_and_message parse search (l ++ raw ++ r)
  = _parse_when_and_message parse search raw.
Proof.
  intros Hl Hr.
  assert (E : command_text (l ++ raw ++ r) = command_text raw).
  { unfold command_text, strip. now rewrite (strip_by_padding isspace l raw r). }
  unfold _parse_when_and_message. now rewrite E.
Qed.

Lemma resolver_ignores_outer_blanks_witness :
  _parse_when_and_message sample_parse sample_search
    ([10%N; 32%N] ++ py "/r dans 1 minute | tester" ++ [160%N; 9%N])
  = _parse_when_and_message sample_parse sample_search
      (py "/r dans 1 minute | tester").
Proof.
  apply (resolver_ignores_outer_blanks sample_parse sample_search
           [10%N; 32%N] (py "/r dans 1 minute | tester") [160%N; 9%N]);
    reflexivity.
Defined.

(** X5. In explicit mode the phrase and the message that are returned
    are trimmed on both sides, the phrase holds no separator, and each is
    made of characters of the input: nothing is added to what the user
    wrote. *)
Theorem explicit_mode_result_shape
  (parse : pystr -> option datetime)
  (search : pystr -> option (list (pystr * datetime)))
  (raw phrase msg : pystr) (d : datetime) :
  In bar raw ->
  _parse_when_and_message parse search raw = Return (d, phrase, msg) ->
  ~ In bar phrase
  /\ ends_clean isspace phrase
  /\ ends_clean isspace msg
  /\ (forall c, In c phrase -> In c raw)
  /\ (forall c, In c msg -> In c raw).
Proof.
  intros Hin.
  destruct (first_bar_split raw Hin) as [b [a [-> Hb]]].
  rewrite (resolve_with_bar parse search b a Hb).
  destruct (is_empty (strip a)); [discriminate|].
  destruct (parse (when_segment b)); [|discriminate].
  intros H. injection H as _ <- <-.
  assert (Hsub : forall c, In c (when_segment b) -> In c b).
  { intros c Hc. unfold when_segment, strip in Hc.
    now apply in_strip_by, in_re_sub_trigger, in_lstrip_by in Hc. }
  repeat split.
  - intros Hc. apply Hb. now apply Hsub.
  - apply (strip_by_ends_clean isspace).
  - apply (strip_by_ends_clean isspace).
  - apply (strip_by_ends_clean isspace).
  - apply (strip_by_ends_clean isspace).
  - intros c Hc. apply in_or_app. left. now apply Hsub.
  - intros c Hc. apply in_or_app. right. right.
    unfold strip in Hc. now apply in_strip_by in Hc.
Qed.

Lemma explicit_mode_result_shape_witness :
  ~ In bar (py "dans 1 minute")
  /\ ends_clean isspace (py "dans 1 minute")
  /\ ends_clean isspace (py "a | b")
  /\ (forall c, In c (py "dans 1 minute") ->
                In c (py " /r  dans 1 minute  |  a | b  "))
  /\ (forall c, In c (py "a | b") ->
                In c (py " /r  dans 1 minute  |  a | b  ")).
Proof.
  apply (explicit_mode_result_shape sample_parse sample_search
           (py " /r  dans 1 minute  |  a | b  ") (py "dans 1 minute")
           (py "a | b") (mkDatetime 60000000 UTC)).
  - apply contains_In. reflexivity.
  - vm_compute. reflexivity.
Defined.

(** X6. In fallback mode the phrase returned is the text of the first
    match as the search gave it, and the message neither begins nor ends
    with one of [" ,-–—:;"]; it is ["Rappel"] or it is made of characters
    of the input, and it holds no separator. *)
Theorem fallback_mode_result_shape
  (parse : pystr -> option datetime)
  (search : pystr -> option (list (pystr * datetime)))
  (raw phrase msg : pystr) (d : datetime) :
  ~ In bar raw ->
  _parse_when_and_message parse search raw = Return (d, phrase, msg) ->
  (exists d0 rest, search (command_text raw) = Some ((phrase, d0) :: rest))
  /\ ends_clean in_boundary msg
  /\ (msg = py "Rappel" \/ forall c, In c msg -> In c raw)
  /\ ~ In bar msg.
Proof.
  intros Hn. rewrite (resolve_without_bar parse search raw Hn).
  destruct (search (command_text raw)) as [[|[mt d0] rest]|];
    try discriminate.
  intros H. injection H as _ <- <-.
  split; [now exists d0, rest|].
  assert (Hsub : forall c, In c (residual mt (command_text raw)) -> In c raw).
  { intros c Hc. unfold residual, strip_chars in Hc.
    now apply in_strip_by, in_replace_with_empty, in_command_text in Hc. }
  destruct (residual mt (command_text raw)) as [|c0 r0] eqn:Hr;
    cbv beta iota delta [is_empty].
  - split; [split|split].
    + intros c t E. vm_compute in E. injection E as <- _. reflexivity.
    + intros t c E.
      assert (Hl : last (t ++ [c]) 0%N = c) by apply last_last.
      rewrite <- E in Hl. vm_compute in Hl. now subst c.
    + now left.
    + apply contains_not_In. reflexivity.
  - split; [split|split].
    + rewrite <- Hr. apply (strip_by_ends_clean (fun c => contains c boundary_chars)).
    + rewrite <- Hr. apply (strip_by_ends_clean (fun c => contains c boundary_chars)).
    + right. exact Hsub.
    + intros Hc. apply Hn. now apply Hsub.
Qed.

Lemma fallback_mode_result_shape_witness :
  (exists d0 rest,
     sample_search (command_text (py "/r demain: - appeler, vite ;"))
     = Some ((py "demain", d0) :: rest))
  /\ ends_clean in_boundary (py "appeler, vite")
  /\ (py "appeler, vite" = py "Rappel"
      \/ forall c, In c (py "appeler, vite") ->
                   In c (py "/r demain: - appeler, vite ;"))
  /\ ~ In bar (py "appeler, vite").
Proof.
  apply (fallback_mode_result_shape sample_parse sample_search
           (py "/r demain: - appeler, vite ;") (py "demain")
           (py "appeler, vite") (mkDatetime 86400000000 UTC)).
  - apply contains_not_In. reflexivity.
  - vm_compute. reflexivity.
Defined.

Lemma strip_by_all (p : char -> bool) (x : pystr) :
  forallb p x = true -> strip_by p x = [].
Proof.
  intros H. pose proof (lstrip_by_all p x [] H) as E.
  rewrite app_nil_r in E. unfold strip_by. now rewrite E.
Qed.

Lemma startswith_outside_run (q : char -> bool) (c : char) (t run x : pystr) :
  forallb q run = true -> q c = false ->
  forall i, i < List.length run ->
            startswith (c :: t) (skipn i (run ++ x)) = false.
Proof.
  intros Hrun Hc. induction run as [|d run IH]; intros i Hi; simpl in Hi;
    [lia|].
  simpl in Hrun. apply andb_prop in Hrun as [Hd Hrun].
  destruct i as [|i]; simpl.
  - destruct (N.eqb_spec c d) as [->|_]; [congruence | reflexivity].
  - apply IH; [exact Hrun | lia].
Qed.

Lemma startswith_in_run (q : char -> bool) (c : char) (t run : pystr) :
  forallb q run = true -> q c = false ->
  forall i, startswith (c :: t) (skipn i run) = false.
Proof.
  intros Hrun Hc. induction run as [|d run IH]; intros i.
  - now destruct i.
  - simpl in Hrun. apply andb_prop in Hrun as [Hd Hrun].
    destruct i as [|i]; simpl.
    + destruct (N.eqb_spec c d) as [->|_]; [congruence | reflexivity].
    + apply IH. exact Hrun.
Qed.

(** X7. When the text of the command is the phrase alone, with nothing
    around it but characters of [" ,-–—:;"], nothing is left for the
    message and the resolver returns ["Rappel"]. *)
Theorem fallback_phrase_alone
  (parse : pystr -> option datetime)
  (search : pystr -> option (list (pystr * datetime)))
  (raw l r t : pystr) (c : char) (dt : datetime)
  (rest : list (pystr * datetime)) :
  ~ In bar raw ->
  command_text raw = l ++ (c :: t) ++ r ->
  search (command_text raw) = Some ((c :: t, dt) :: rest) ->
  forallb in_boundary l = true ->
  forallb in_boundary r = true ->
  in_boundary c = false ->
  _parse_when_and_message parse search raw
  = Return (astimezone_utc dt, c :: t, py "Rappel").
Proof.
  intros Hn Htext Hs Hl Hr Hc.
  rewrite (resolve_without_bar parse search raw Hn), Hs.
  assert (E : residual (c :: t) (command_text raw) = []).
  { unfold residual. rewrite Htext.
    rewrite (replace_single_occurrence (c :: t) l r).
    - assert (Hall : forallb in_boundary (l ++ r) = true)
        by (rewrite forallb_app, Hl, Hr; reflexivity).
      exact (strip_by_all in_boundary (l ++ r) Hall).
    - discriminate.
    - apply (startswith_outside_run in_boundary c t l _ Hl Hc).
    - apply (startswith_in_run in_boundary c t r Hr Hc). }
  now rewrite E.
Qed.

Lemma fallback_phrase_alone_witness :
  _parse_when_and_message sample_parse sample_search (py "/r demain ;-")
  = Return (astimezone_utc (mkDatetime 90000000000 paris), py "demain",
            py "Rappel").
Proof.
  apply (fallback_phrase_alone sample_parse sample_search
           (py "/r demain ;-") [] (py " ;-") (py "emain") 100%N
           (mkDatetime 90000000000 paris) []);
    try reflexivity.
  apply contains_not_In. reflexivity.
Defined.

(** ** Further properties of the handlers *)





(** One request of any kind: one answer to its chat, at most one job
    more, and only from [r_cmd]. *)
Lemma handle_step (r : Request) (c : Context) :
  let chat_id := effective_chat_id (request_update r) in
  exists text added,
    handle r c
    = (Return tt,
       mkContext (job_queue c ++ added) (sent c ++ [(chat_id, text)]))
    /\ List.length added <= 1
    /\ Forall (fun j => (5000000 <= when j)%Z /\ data_chat_id j = chat_id)
         added
    /\ (match r with OnR _ _ => True | _ => added = [] end).
Proof.
  destruct r as [u|u|ext u]; simpl.
  - exists pret, []. rewrite app_nil_r. repeat split; auto.
  - exists HELP, []. rewrite app_nil_r. repeat split; auto.
  - destruct (r_cmd_cases ext u c)
      as [[e [_ ->]]
         |[w [h [m [_ [Hd [_ [[_ ->]|[detail [_ [_ ->]]]]]]]]]]].
    + exists pas_compris, []. rewrite app_nil_r. repeat split; auto.
    + eexists _, [_]. repeat split; auto.
    + eexists _, [_]. repeat split; auto.
Qed.

(** X10. Over a whole run of the bot, with the three handlers in any
    order: there is one answer for each request, sent to the chat of that
    request and in the order of the requests; the job queue only grows,
    by at most one job for each request; every job that is added has a
    delay of five seconds or more and belongs to the chat of one of the
    requests; [start] and [help_cmd] alone add nothing. *)
Theorem serve_answers_and_queue (reqs : list Request) (c : Context) :
  let chats := map (fun r => effective_chat_id (request_update r)) reqs in
  map fst (sent (serve reqs c)) = map fst (sent c) ++ chats
  /\ exists added,
       job_queue (serve reqs c) = job_queue c ++ added
       /\ List.length added <= List.length reqs
       /\ Forall (fun j => (5000000 <= when j)%Z /\ In (data_chat_id j) chats)
            added
       /\ (Forall (fun r => match r with OnR _ _ => False | _ => True end)
             reqs -> added = []).
Proof.
  revert c. induction reqs as [|r reqs IH]; intros c; simpl.
  - split; [now rewrite app_nil_r|].
    exists []. rewrite app_nil_r. repeat split; auto.
  - destruct (handle_step r c) as [text [added1 [E [Hlen [Hall Hkind]]]]].
    rewrite E. simpl.
    destruct (IH (mkContext (job_queue c ++ added1)
                    (sent c ++ [(effective_chat_id (request_update r), text)])))
      as [Hs [added2 [Hq [Hlen2 [Hall2 Hkind2]]]]].
    simpl in Hs, Hq. split.
    + rewrite Hs, map_app, <- app_assoc. reflexivity.
    + exists (added1 ++ added2). rewrite Hq, <- app_assoc.
      split; [reflexivity|]. split; [rewrite length_app; lia|]. split.
      * apply Forall_app. split.
        -- apply (Forall_impl _ (P := fun j => (5000000 <= when j)%Z
                     /\ data_chat_id j = effective_chat_id (request_update r)));
             [|exact Hall].
           intros j [H1 H2]. split; [exact H1 | now left].
        -- apply (Forall_impl _ (P := fun j => (5000000 <= when j)%Z
                     /\ In (data_chat_id j)
                          (map (fun r0 => effective_chat_id (request_update r0))
                             reqs)));
             [|exact Hall2].
           intros j [H1 H2]. split; [exact H1 | now right].
      * intros HF. inversion HF as [|r0 l0 Hr Hrest]; subst.
        rewrite (Hkind2 Hrest), app_nil_r.
        destruct r; [exact Hkind | exact Hkind | contradiction].
Qed.

(** ** The decimal form of an integer and the names of jobs *)

Lemma utf8_decode_low (bs : list N) :
  Forall (fun b => (b < 128)%N) bs -> utf8_decode 0 0 bs = bs.
Proof.
  induction 1 as [|b bs Hb _ IH]; simpl; [reflexivity|].
  destruct (N.ltb_spec b 128); [now f_equal | lia].
Qed.

Lemma is_digit_low (b : N) : is_digit b = true -> (b < 128)%N.
Proof.
  unfold is_digit. intros H. apply andb_prop in H as [_ H].
  apply N.leb_le in H. lia.
Qed.

Lemma nilempty_digits (d : Decimal.uint) :
  Forall (fun b => is_digit b = true)
    (code_units (NilEmpty.string_of_uint d)).
Proof.
  induction d; simpl; constructor; auto.
Qed.

Lemma uint_digits (d : Decimal.uint) :
  Forall (fun b => is_digit b = true) (code_units (NilZero.string_of_uint d))
  /\ code_units (NilZero.string_of_uint d) <> [].
Proof.
  destruct d;
    (split; [first [exact (nilempty_digits _) | repeat constructor]
            | discriminate]).
Qed.

Lemma int_units_low (d : Decimal.int) :
  Forall (fun b => (b < 128)%N) (code_units (NilZero.string_of_int d)).
Proof.
  assert (H : forall u, Forall (fun b => (b < 128)%N)
                          (code_units (NilZero.string_of_uint u))).
  { intros u. destruct (uint_digits u) as [Hu _].
    eapply Forall_impl; [|exact Hu]. intros b. apply is_digit_low. }
  destruct d as [u|u]; simpl.
  - apply H.
  - constructor; [reflexivity | apply H].
Qed.

Lemma str_of_int_units (n : Z) :
  str_of_int n = code_units (NilZero.string_of_int (Z.to_int n)).
Proof.
  unfold str_of_int, py. apply utf8_decode_low, int_units_low.
Qed.

(** [str(n)] is a sign, if [n] is negative, and then digits, at least
    one. *)
Lemma str_of_int_shape (n : Z) :
  exists ds,
    ds <> []
    /\ Forall (fun b => is_digit b = true) ds
    /\ str_of_int n = (if (n <? 0)%Z then [45%N] else []) ++ ds.
Proof.
  rewrite str_of_int_units.
  destruct n as [|q|q]; simpl Z.to_int; simpl Z.ltb.
  - exists [48%N]. repeat split; [discriminate | repeat constructor].
  - destruct (uint_digits (Pos.to_uint q)) as [H1 H2].
    exists (code_units (NilZero.string_of_uint (Pos.to_uint q))).
    repeat split; assumption.
  - destruct (uint_digits (Pos.to_uint q)) as [H1 H2].
    exists (code_units (NilZero.string_of_uint (Pos.to_uint q))).
    repeat split; assumption.
Qed.

Lemma code_units_inj (s t : string) : code_units s = code_units t -> s = t.
Proof.
  unfold code_units. intros H.
  assert (E : list_ascii_of_string s = list_ascii_of_string t).
  { revert H. generalize (list_ascii_of_string s) (list_ascii_of_string t).
    induction l as [|a l IH]; intros [|b l']; simpl; try discriminate;
      [reflexivity|].
    intros H. injection H as Hab Hl.
    f_equal; [|now apply IH].
    rewrite <- (ascii_N_embedding a), <- (ascii_N_embedding b).
    now rewrite Hab. }
  rewrite <- (string_of_list_ascii_of_string s),
          <- (string_of_list_ascii_of_string t).
  now rewrite E.
Qed.

Lemma to_int_regular (n : Z) :
  Z.to_int n <> Decimal.Pos Decimal.Nil /\ Z.to_int n <> Decimal.Neg Decimal.Nil.
Proof.
  destruct n as [|q|q]; simpl; split; try discriminate;
    intros H; injection H as H; now apply (DecimalPos.Unsigned.to_uint_nonnil q).
Qed.

(** [str] of an integer tells the integer. *)
Lemma str_of_int_inj (a b : Z) : str_of_int a = str_of_int b -> a = b.
Proof.
  rewrite !str_of_int_units. intros H. apply code_units_inj in H.
  apply (f_equal NilZero.int_of_string) in H.
  destruct (to_int_regular a) as [A1 A2], (to_int_regular b) as [B1 B2].
  rewrite (NilZero.isi _ A1 A2), (NilZero.isi _ B1 B2) in H.
  injection H as H. apply (f_equal Z.of_int) in H.
  now rewrite !DecimalZ.of_to in H.
Qed.

Lemma digits_before_dash (x x' y y' : pystr) :
  Forall (fun b => is_digit b = true) x ->
  Forall (fun b => is_digit b = true) x' ->
  x ++ 45%N :: y = x' ++ 45%N :: y' ->
  x = x' /\ y = y'.
Proof.
  intros Hx. revert x'. induction Hx as [|c x Hc Hx IH]; intros x' Hx' E.
  - destruct Hx' as [|c' x' Hc' _]; simpl in E.
    + injection E as E. now split.
    + injection E as E _. subst c'. discriminate.
  - destruct Hx' as [|c' x' Hc' Hx']; simpl in E.
    + injection E as E _. subst c. discriminate.
    + injection E as E1 E2. destruct (IH x' Hx' E2) as [-> ->].
      now subst.
Qed.

Lemma signed_before_dash (a b a' b' : Z) (rest rest' : pystr) :
  str_of_int a ++ 45%N :: rest = str_of_int a' ++ 45%N :: rest' ->
  a = a' /\ rest = rest'.
Proof.
  destruct (str_of_int_shape a) as [ds [Hne [Hd Ea]]].
  destruct (str_of_int_shape a') as [ds' [Hne' [Hd' Ea']]].
  intros E.
  assert (Hs : str_of_int a = str_of_int a' /\ rest = rest').
  { rewrite Ea, Ea' in *. revert E.
    destruct (a <? 0)%Z, (a' <? 0)%Z; simpl; intros E.
    - injection E as E. destruct (digits_before_dash _ _ _ _ Hd Hd' E).
      split; congruence.
    - destruct Hd' as [|c' x' Hc' _]; [congruence|].
      simpl in E. injection E as E _. subst c'. discriminate.
    - destruct Hd as [|c x Hc _]; [congruence|].
      simpl in E. injection E as E _. subst c. discriminate.
    - destruct (digits_before_dash _ _ _ _ Hd Hd' E). split; congruence. }
  destruct Hs as [Hs ->]. split; [now apply str_of_int_inj | reflexivity].
Qed.

(** X11. Two jobs have the same name exactly when they are of the same
    chat and [int(when_utc.timestamp())] is the same for their instants:
    the name tells the two numbers apart, also when one is negative.
    For instants less than [2 ** 34] seconds from the epoch, that is
    until the year 2514, that integer is the number of seconds of the
    instant truncated towards zero: there two names are equal exactly
    when the chats are equal and the truncated seconds are, so that all
    the instants less than a second before or after the epoch share the
    second 0. *)
Theorem job_name_tells_chat_and_second (chat_id chat_id' : Z)
  (w w' : datetime) :
  (job_name chat_id w = job_name chat_id' w'
   <-> chat_id = chat_id' /\ int_timestamp w = int_timestamp w')
  /\ ((Z.abs (instant w) < 2 ^ 34 * 1000000)%Z ->
      (Z.abs (instant w') < 2 ^ 34 * 1000000)%Z ->
      (job_name chat_id w = job_name chat_id' w'
       <-> chat_id = chat_id'
           /\ Z.quot (instant w) 1000000 = Z.quot (instant w') 1000000)).
Proof.
  assert (Hiff : job_name chat_id w = job_name chat_id' w'
                 <-> chat_id = chat_id' /\ int_timestamp w = int_timestamp w').
  { split.
    - unfold job_name. intros E. apply app_inv_head in E.
      change (py "-") with [45%N] in E. simpl app in E.
      destruct (signed_before_dash chat_id 0 chat_id' 0 _ _ E) as [-> E2].
      split; [reflexivity | now apply str_of_int_inj].
    - intros [-> E]. unfold job_name. now rewrite E. }
  split; [exact Hiff|].
  intros Hw Hw'.
  now rewrite Hiff, (int_timestamp_in_range w Hw),
              (int_timestamp_in_range w' Hw').
Qed.

(** X12. When the text that the search reports for its first match is
    empty, or does not occur in the text of the command as it is written
    there, nothing is taken out: the message is the whole text of the
    command with the characters of [" ,-–—:;"] stripped at both ends
    (or ["Rappel"] if that is empty), the words of the date included. *)
Theorem fallback_phrase_not_in_text
  (parse : pystr -> option datetime)
  (search : pystr -> option (list (pystr * datetime)))
  (raw match_text : pystr) (dt : datetime)
  (rest : list (pystr * datetime)) :
  ~ In bar raw ->
  search (command_text raw) = Some ((match_text, dt) :: rest) ->
  match_text = []
  \/ (forall i, startswith match_text (skipn i (command_text raw)) = false) ->
  let whole := strip_chars (py " ,-–—:;") (command_text raw) in
  _parse_when_and_message parse search raw
  = Return (astimezone_utc dt, match_text,
            if is_empty whole then py "Rappel" else whole).
Proof.
  intros Hn Hs Habs whole.
  rewrite (resolve_without_bar parse search raw Hn), Hs.
  assert (E : replace_with_empty match_text (command_text raw)
              = command_text raw).
  { destruct Habs as [->|Habs]; [reflexivity|].
    destruct match_text as [|c t]; [reflexivity|].
    exact (remove_scan_absent (c :: t) (command_text raw) Habs). }
  unfold residual. now rewrite E.
Qed.

Lemma fallback_phrase_not_in_text_witness :
  _parse_when_and_message sample_parse
    (fun _ => Some [(py "demain", mkDatetime 90000000000 paris)])
    (py "/r Demain, acheter du pain")
  = Return (astimezone_utc (mkDatetime 90000000000 paris), py "demain",
            py "Demain, acheter du pain").
Proof.
  apply (fallback_phrase_not_in_text sample_parse
           (fun _ => Some [(py "demain", mkDatetime 90000000000 paris)])
           (py "/r Demain, acheter du pain") (py "demain")
           (mkDatetime 90000000000 paris) []).
  - apply contains_not_In. reflexivity.
  - reflexivity.
  - right. intros i.
    do 24 (destruct i as [|i]; [reflexivity|]). reflexivity.
Defined.
